(** * Josiah inventory tracker: ledger and reconciliation core

    A shallow embedding of the transaction ledger of the application:
    - [handleUpdateInventory] and [handleDeleteHistoryRecord] of the App
      component (commit and reversal processors),
    - [handleFileChange] of the App component (restore from a backup file),
    - [reconstructHistoryForDate], [switchDate], [saveTransaction],
      [removeDraftTransaction], [handleRemoveItemRow] and [handleSubmit] of
      the TransactionTable component (reconciliation engine and draft matrix).

    Modelling conventions.
    - A JavaScript [number] that holds a quantity is an integer of [Z]; the
      code only ever adds, subtracts and compares them.
    - A JavaScript object used as a dictionary ([TransactionMatrix], the
      per-date drafts, the open input rows) is a [gmap] with [string] keys;
      [Object.entries] is [map_to_list].  Keys are the ids handed out by
      [crypto.randomUUID], not names of [Object.prototype].  A JavaScript
      object enumerates its keys in the order of their insertion, a [gmap]
      in an order of its own: the records of one commit may come in another
      order than in the browser, and no statement below depends on it.
    - Arrays are lists; [Array.prototype.findIndex] is [list_find].
    - React state is passed explicitly: every handler maps the state it
      closes over to the state after the event.
    - [confirm], the clock and [crypto.randomUUID] are inputs of a handler. *)

From Stdlib Require Import Ascii ZArith Lia.
From stdpp Require Import base option list gmap fin_maps strings numbers sorting.

Set Warnings "-register-all".

Local Open Scope Z_scope.

(** ** types.ts *)

Inductive WarehouseType := Warehouse1 | Warehouse2.

(** ['in' | 'out'] *)
Inductive TransactionType := TIn | TOut.

Global Instance TransactionType_eq_dec : EqDecision TransactionType.
Proof. solve_decision. Defined.

Record InventoryItem := mkItem {
  item_id : string;
  item_name : string;
  item_image : string;
  item_unit : string;
  item_quantity : Z;
  item_minStock : option Z;
  item_location : WarehouseType;
  item_productionDate : option string;
  item_expiryDate : option string;
  item_lastUpdated : string
}.

Record Department := mkDept {
  dept_id : string;
  dept_name : string
}.

(** [{ in: number, out: number }] *)
Record Cell := mkCell {
  inQty : Z;
  outQty : Z
}.

Global Instance Cell_eq_dec : EqDecision Cell.
Proof. solve_decision. Defined.

(** [{ [itemId]: { [deptId]: { in, out } } }] *)
Abbreviation DeptTrans := (gmap string Cell).
Abbreviation TransactionMatrix := (gmap string (gmap string Cell)).

Record TransactionRecord := mkRecord {
  rec_id : string;
  rec_date : string;
  rec_itemId : string;
  rec_itemName : string;
  rec_itemImage : string;
  rec_departmentId : string;
  rec_departmentName : string;
  rec_type : TransactionType;
  rec_quantity : Z;
  rec_timestamp : string
}.

(** The amount of a cell in one direction: [cell[type]]. *)
Definition cellQty (ty : TransactionType) (c : Cell) : Z :=
  match ty with TIn => inQty c | TOut => outQty c end.

(** [{ ...cell, [type]: q }] *)
Definition cellSet (ty : TransactionType) (q : Z) (c : Cell) : Cell :=
  match ty with
  | TIn => {| inQty := q; outQty := outQty c |}
  | TOut => {| inQty := inQty c; outQty := q |}
  end.

(** ** App component: the store *)

Record AppState := mkApp {
  items : list InventoryItem;
  departments : list Department;
  history : list TransactionRecord
}.

(** What a handler reads from its environment: [new Date().toISOString()]
    and the successive results of [crypto.randomUUID()]. *)
Record Env := mkEnv {
  timestamp : string;
  randomUUID : nat -> string
}.

(** [{ ...item, quantity: item.quantity + delta }] *)
Definition addQuantity (delta : Z) (i : InventoryItem) : InventoryItem :=
  {| item_id := item_id i; item_name := item_name i; item_image := item_image i;
     item_unit := item_unit i; item_quantity := item_quantity i + delta;
     item_minStock := item_minStock i; item_location := item_location i;
     item_productionDate := item_productionDate i;
     item_expiryDate := item_expiryDate i;
     item_lastUpdated := item_lastUpdated i |}.

(** [{ ...item, lastUpdated: ts }] *)
Definition stamp (ts : string) (i : InventoryItem) : InventoryItem :=
  {| item_id := item_id i; item_name := item_name i; item_image := item_image i;
     item_unit := item_unit i; item_quantity := item_quantity i;
     item_minStock := item_minStock i; item_location := item_location i;
     item_productionDate := item_productionDate i;
     item_expiryDate := item_expiryDate i;
     item_lastUpdated := ts |}.

(** *** handleAddDepartment *)

(** [uuid] is the result of [crypto.randomUUID()]. *)
Definition handleAddDepartment (st : AppState) (name uuid : string)
    : AppState :=
  if bool_decide (name ∈ dept_name <$> departments st) then st
  else {| items := items st;
          departments := departments st ++ [ {| dept_id := uuid; dept_name := name |} ];
          history := history st |}.

(** *** handleUpdateInventory *)

(** [dept ? dept.name : 'Unknown Dept'] for
    [dept = departments.find(d => d.id === deptId)] *)
Definition deptNameOf (depts : list Department) (deptId : string) : string :=
  match list_find (fun d => dept_id d = deptId) depts with
  | Some (_, d) => dept_name d
  | None => "Unknown Dept"
  end.

(** [newHistoryRecords.push({ id: crypto.randomUUID(), ... })]: the call of
    [crypto.randomUUID] is the one after those of the records pushed so far. *)
Definition pushRecord (env : Env) (date : string) (item : InventoryItem)
    (itemId deptId deptName : string) (ty : TransactionType) (q : Z)
    (recs : list TransactionRecord) : list TransactionRecord :=
  recs ++ [ {| rec_id := randomUUID env (length recs);
               rec_date := date;
               rec_itemId := itemId;
               rec_itemName := item_name item;
               rec_itemImage := item_image item;
               rec_departmentId := deptId;
               rec_departmentName := deptName;
               rec_type := ty;
               rec_quantity := q;
               rec_timestamp := timestamp env |} ].

(** Body of the inner [forEach], over the departments of one item; the
    accumulator is [(netChange, newHistoryRecords)]. *)
Definition commitDept (env : Env) (depts : list Department) (date : string)
    (item : InventoryItem) (itemId : string)
    (acc : Z * list TransactionRecord) (e : string * Cell)
    : Z * list TransactionRecord :=
  let deptId := e.1 in
  let deptName := deptNameOf depts deptId in
  let netChange := acc.1 + (inQty e.2 - outQty e.2) in
  let recs1 :=
    if bool_decide (0 < inQty e.2)
    then pushRecord env date item itemId deptId deptName TIn (inQty e.2) acc.2
    else acc.2 in
  let recs2 :=
    if bool_decide (0 < outQty e.2)
    then pushRecord env date item itemId deptId deptName TOut (outQty e.2) recs1
    else recs1 in
  (netChange, recs2).

(** Body of the outer [forEach], over the items of the matrix; the
    accumulator is [(newItems, newHistoryRecords)]. *)
Definition commitItem (env : Env) (depts : list Department) (date : string)
    (acc : list InventoryItem * list TransactionRecord)
    (e : string * DeptTrans)
    : list InventoryItem * list TransactionRecord :=
  let itemId := e.1 in
  match list_find (fun i => item_id i = itemId) acc.1 with
  | Some (itemIndex, item) =>
      let r := foldl (commitDept env depts date item itemId) (0, acc.2)
                     (map_to_list e.2) in
      (<[itemIndex := stamp (timestamp env) (addQuantity r.1 item)]> acc.1, r.2)
  | None => acc
  end.

(** The two nested loops: the new item array and [newHistoryRecords]. *)
Definition commitLoop (env : Env) (st : AppState) (matrix : TransactionMatrix)
    (date : string) : list InventoryItem * list TransactionRecord :=
  foldl (commitItem env (departments st) date) (items st, [])
        (map_to_list matrix).

Definition handleUpdateInventory (env : Env) (st : AppState)
    (matrix : TransactionMatrix) (date : string) : AppState :=
  let r := commitLoop env st matrix date in
  {| items := r.1;
     departments := departments st;
     history := r.2 ++ history st |}.

(** *** handleDeleteHistoryRecord *)

(** [shouldRevertInventory] is the answer to the [confirm] dialog. *)
Definition handleDeleteHistoryRecord (st : AppState) (recordId : string)
    (shouldRevertInventory : bool) : AppState :=
  match list_find (fun r => rec_id r = recordId) (history st) with
  | None => st
  | Some (_, record) =>
      let history' := filter (fun r => rec_id r <> recordId) (history st) in
      let items' :=
        if shouldRevertInventory
        then map (fun item =>
                    if bool_decide (item_id item = rec_itemId record)
                    then
                      let reversal :=
                        match rec_type record with
                        | TIn => - rec_quantity record
                        | TOut => rec_quantity record
                        end in
                      addQuantity reversal item
                    else item) (items st)
        else items st in
      {| items := items'; departments := departments st; history := history' |}
  end.

(** *** handleFileChange: restore from a backup file *)

(** A value produced by [JSON.parse]. *)
Inductive json :=
  | JNull
  | JBool (b : bool)
  | JNum (n : Z)
  | JStr (s : string)
  | JArr (elems : list json)
  | JObj (fields : gmap string json).

(** JavaScript truthiness of a value; [None] is [undefined]. *)
Definition truthy (v : option json) : bool :=
  match v with
  | None => false
  | Some JNull => false
  | Some (JBool b) => b
  | Some (JNum n) => negb (n =? 0)%Z
  | Some (JStr s) => negb (String.eqb s "")
  | Some (JArr _) => true
  | Some (JObj _) => true
  end.

(** [v.key] for a value [v] that is neither [null] nor [undefined]: only
    objects built by [JSON.parse] have own properties named [items],
    [departments] or [history]. *)
Definition prop (key : string) (v : json) : option json :=
  match v with
  | JObj fields => fields !! key
  | _ => None
  end.


(** The three collections as the setters receive them: [setItems(json.items)]
    stores whatever value the payload holds. *)
Record RawStore := mkRaw {
  raw_items : option json;
  raw_departments : option json;
  raw_history : option json
}.

(** Which dialog the handler ends with. *)
Inductive RestoreOutcome :=
  | Restored              (* "Data restored successfully!" *)
  | Cancelled             (* the overwrite warning was declined *)
  | InvalidBackupFormat   (* "Invalid backup file format." *)
  | ReadError.            (* "Error reading file." *)

(** The check of a backup payload: [json && json.items && json.departments]. *)
Definition accepted (j : json) : bool :=
  truthy (Some j) && truthy (prop "items" j) && truthy (prop "departments" j).

(** [json.history || []] *)
Definition historyOrEmpty (j : json) : option json :=
  if truthy (prop "history" j) then prop "history" j else Some (JArr []).

(** [reader.onload]: [parsed] is the result of [JSON.parse], [None] when it
    throws; [confirmed] is the answer to the overwrite warning. *)
Definition restoreOnLoad (st : RawStore) (parsed : option json)
    (confirmed : bool) : RawStore * RestoreOutcome :=
  match parsed with
  | None => (st, ReadError)
  | Some j =>
      if accepted j
      then
        if confirmed
        then ({| raw_items := prop "items" j;
                 raw_departments := prop "departments" j;
                 raw_history := historyOrEmpty j |}, Restored)
        else (st, Cancelled)
      else (st, InvalidBackupFormat)
  end.


(** ** TransactionTable component *)

(** One open inline form: [{ deptId, type, qty }]. *)
Record ActiveRow := mkRow {
  row_deptId : string;
  row_type : TransactionType;
  row_qty : string
}.

Abbreviation ActiveRows := (gmap string ActiveRow).

(** A per-date snapshot: [{ selectedItemIds, newTransactions, activeRows }]. *)
Record Draft := mkDraft {
  draft_selectedItemIds : list string;
  draft_newTransactions : TransactionMatrix;
  draft_activeRows : ActiveRows
}.

Record TableState := mkTable {
  selectedItemIds : list string;
  committedTransactions : TransactionMatrix;
  newTransactions : TransactionMatrix;
  drafts : gmap string Draft;
  activeRows : ActiveRows;
  selectedAddItem : string;
  date : string
}.

(** [Set.prototype.add] on a set kept in insertion order. *)
Definition setAdd (x : string) (s : list string) : list string :=
  if bool_decide (x ∈ s) then s else s ++ [x].

(** [Array.from(new Set(l))] *)
Definition arrayFromSet (l : list string) : list string :=
  foldl (fun s x => setAdd x s) [] l.

(** *** reconstructHistoryForDate *)

(** Body of [historyForDate.forEach]; the accumulator is
    [(matrix, historyItemIds)].  The three in-place updates of the cell are
    written as one update of the matrix. *)
Definition replayRecord (acc : TransactionMatrix * list string)
    (h : TransactionRecord) : TransactionMatrix * list string :=
  let row := default ∅ (acc.1 !! rec_itemId h) in
  let cell := default (mkCell 0 0) (row !! rec_departmentId h) in
  let cell' :=
    match rec_type h with
    | TIn => {| inQty := inQty cell + rec_quantity h; outQty := outQty cell |}
    | TOut => {| inQty := inQty cell; outQty := outQty cell + rec_quantity h |}
    end in
  (<[rec_itemId h := <[rec_departmentId h := cell']> row]> acc.1,
   setAdd (rec_itemId h) acc.2).

(** Returns the matrix handed to [setCommittedTransactions] and the array
    of item ids. *)
Definition reconstructHistoryForDate (hist : list TransactionRecord)
    (targetDate : string) : TransactionMatrix * list string :=
  foldl replayRecord (∅, [])
        (filter (fun h => rec_date h = targetDate) hist).

(** The committed matrix of a date. *)
Definition replayCommitted (hist : list TransactionRecord)
    (targetDate : string) : TransactionMatrix :=
  (reconstructHistoryForDate hist targetDate).1.

(** *** switchDate *)

Definition switchDate (hist : list TransactionRecord) (s : TableState)
    (newDate : string) : TableState :=
  let snapshot :=
    {| draft_selectedItemIds := selectedItemIds s;
       draft_newTransactions := newTransactions s;
       draft_activeRows := activeRows s |} in
  let drafts' := <[date s := snapshot]> (drafts s) in
  let r := reconstructHistoryForDate hist newDate in
  match drafts s !! newDate with
  | Some draft =>
      {| selectedItemIds := arrayFromSet (r.2 ++ draft_selectedItemIds draft);
         committedTransactions := r.1;
         newTransactions := draft_newTransactions draft;
         drafts := drafts';
         activeRows := draft_activeRows draft;
         selectedAddItem := selectedAddItem s;
         date := newDate |}
  | None =>
      {| selectedItemIds := r.2;
         committedTransactions := r.1;
         newTransactions := ∅;
         drafts := drafts';
         activeRows := ∅;
         selectedAddItem := selectedAddItem s;
         date := newDate |}
  end.

(** The effect that runs when the [history] prop changes. *)
Definition historyEffect (hist : list TransactionRecord) (s : TableState)
    : TableState :=
  let r := reconstructHistoryForDate hist (date s) in
  {| selectedItemIds :=
       if bool_decide (0 < length r.2)%nat
       then arrayFromSet (selectedItemIds s ++ r.2)
       else selectedItemIds s;
     committedTransactions := r.1;
     newTransactions := newTransactions s;
     drafts := drafts s;
     activeRows := activeRows s;
     selectedAddItem := selectedAddItem s;
     date := date s |}.

(** *** The inline form *)

(** [parseInt(s)] without a radix: leading white space, an optional sign, an
    optional [0x] prefix, then the longest run of digits; [None] is [NaN].
    White space is the ASCII part of what the language accepts. *)
Definition isWhite (c : ascii) : bool :=
  bool_decide (nat_of_ascii c ∈ [9; 10; 11; 12; 13; 32]%nat).

Fixpoint trimStart (s : string) : string :=
  match s with
  | String c s' => if isWhite c then trimStart s' else s
  | EmptyString => s
  end.

Definition digitVal (radix : Z) (c : ascii) : option Z :=
  let n := Z.of_nat (nat_of_ascii c) in
  let v :=
    if bool_decide (48 <= n <= 57) then Some (n - 48)
    else if bool_decide (97 <= n <= 122) then Some (n - 87)
    else if bool_decide (65 <= n <= 90) then Some (n - 55)
    else None in
  match v with
  | Some d => if bool_decide (d < radix) then Some d else None
  | None => None
  end.

Fixpoint parseDigits (radix : Z) (acc : option Z) (s : string) : option Z :=
  match s with
  | String c s' =>
      match digitVal radix c with
      | Some d => parseDigits radix (Some (default 0 acc * radix + d)) s'
      | None => acc
      end
  | EmptyString => acc
  end.

Definition parseInt (s : string) : option Z :=
  let s1 := trimStart s in
  let signed :=
    match s1 with
    | String "-" r => (-1, r)
    | String "+" r => (1, r)
    | _ => (1, s1)
    end in
  let based :=
    match signed.2 with
    | String "0" (String "x" r) => (16, r)
    | String "0" (String "X" r) => (16, r)
    | _ => (10, signed.2)
    end in
  Z.mul signed.1 <$> parseDigits based.1 None based.2.

(** [departments[0]?.id || ''] *)
Definition firstDeptId (depts : list Department) : string :=
  match depts with
  | d :: _ => dept_id d
  | [] => ""
  end.

Definition startAddingTransaction (depts : list Department) (s : TableState)
    (itemId : string) : TableState :=
  {| selectedItemIds := selectedItemIds s;
     committedTransactions := committedTransactions s;
     newTransactions := newTransactions s;
     drafts := drafts s;
     activeRows :=
       <[itemId := {| row_deptId := firstDeptId depts; row_type := TOut;
                      row_qty := "" |}]> (activeRows s);
     selectedAddItem := selectedAddItem s;
     date := date s |}.

Definition cancelAddingTransaction (s : TableState) (itemId : string)
    : TableState :=
  {| selectedItemIds := selectedItemIds s;
     committedTransactions := committedTransactions s;
     newTransactions := newTransactions s;
     drafts := drafts s;
     activeRows := delete itemId (activeRows s);
     selectedAddItem := selectedAddItem s;
     date := date s |}.

(** The three inputs of an open inline form; they are rendered only while
    [activeRows[itemId]] exists. *)
Definition editActiveRow (f : ActiveRow -> ActiveRow) (s : TableState)
    (itemId : string) : TableState :=
  {| selectedItemIds := selectedItemIds s;
     committedTransactions := committedTransactions s;
     newTransactions := newTransactions s;
     drafts := drafts s;
     activeRows := alter f itemId (activeRows s);
     selectedAddItem := selectedAddItem s;
     date := date s |}.

(** [setNewTransactions(m)] *)
Definition setNewTransactions (m : TransactionMatrix) (s : TableState)
    : TableState :=
  {| selectedItemIds := selectedItemIds s;
     committedTransactions := committedTransactions s;
     newTransactions := m;
     drafts := drafts s;
     activeRows := activeRows s;
     selectedAddItem := selectedAddItem s;
     date := date s |}.

(** The updater passed to [setNewTransactions] by [saveTransaction]. *)
Definition stage (itemId deptId : string) (ty : TransactionType) (qtyNum : Z)
    (prev : TransactionMatrix) : TransactionMatrix :=
  let itemTrans := default ∅ (prev !! itemId) in
  let deptTrans := default (mkCell 0 0) (itemTrans !! deptId) in
  <[itemId :=
      <[deptId := cellSet ty (cellQty ty deptTrans + qtyNum) deptTrans]>
        itemTrans]> prev.

Definition saveTransaction (s : TableState) (itemId : string) : TableState :=
  match activeRows s !! itemId with
  | None => s
  | Some formState =>
      if String.eqb (row_deptId formState) ""
         || String.eqb (row_qty formState) ""
      then s
      else
        match parseInt (row_qty formState) with
        | None => s
        | Some qtyNum =>
            if bool_decide (qtyNum <= 0) then s
            else
              cancelAddingTransaction
                (setNewTransactions
                   (stage itemId (row_deptId formState) (row_type formState)
                          qtyNum (newTransactions s)) s)
                itemId
        end
  end.

(** *** Rows and draft cells *)

(** [setSelectedAddItem], from the item selector. *)
Definition setSelectedAddItem (s : TableState) (itemId : string) : TableState :=
  {| selectedItemIds := selectedItemIds s;
     committedTransactions := committedTransactions s;
     newTransactions := newTransactions s;
     drafts := drafts s;
     activeRows := activeRows s;
     selectedAddItem := itemId;
     date := date s |}.

Definition handleAddItemRow (s : TableState) : TableState :=
  if negb (String.eqb (selectedAddItem s) "")
     && negb (bool_decide (selectedAddItem s ∈ selectedItemIds s))
  then
    {| selectedItemIds := selectedItemIds s ++ [selectedAddItem s];
       committedTransactions := committedTransactions s;
       newTransactions := newTransactions s;
       drafts := drafts s;
       activeRows := activeRows s;
       selectedAddItem := "";
       date := date s |}
  else s.

(** [confirmed] is the answer to the dialog shown when the item has saved
    records for the date. *)
Definition handleRemoveItemRow (s : TableState) (id : string)
    (confirmed : bool) : TableState :=
  if bool_decide (is_Some (committedTransactions s !! id)) && negb confirmed
  then s
  else
    {| selectedItemIds := filter (fun itemId => itemId <> id) (selectedItemIds s);
       committedTransactions := committedTransactions s;
       newTransactions := delete id (newTransactions s);
       drafts := drafts s;
       activeRows := activeRows s;
       selectedAddItem := selectedAddItem s;
       date := date s |}.

(** The updater passed to [setNewTransactions] by [removeDraftTransaction]. *)
Definition unstage (itemId deptId : string) (ty : TransactionType)
    (prev : TransactionMatrix) : TransactionMatrix :=
  let newItemTrans := default ∅ (prev !! itemId) in
  let newItemTrans' :=
    match newItemTrans !! deptId with
    | Some c =>
        let c' := cellSet ty 0 c in
        if bool_decide (inQty c' = 0) && bool_decide (outQty c' = 0)
        then delete deptId newItemTrans
        else <[deptId := c']> newItemTrans
    | None => newItemTrans
    end in
  <[itemId := newItemTrans']> prev.

Definition removeDraftTransaction (s : TableState) (itemId deptId : string)
    (ty : TransactionType) : TableState :=
  setNewTransactions (unstage itemId deptId ty (newTransactions s)) s.

(** [Object.keys(newTransactions).length > 0] *)
Definition hasDrafts (s : TableState) : bool :=
  bool_decide (0 < size (newTransactions s))%nat.

(** ** The two components together *)

Record World := mkWorld {
  app : AppState;
  table : TableState
}.

(** [handleSubmit], followed by the effect that the new [history] triggers. *)
Definition handleSubmit (env : Env) (w : World) : World :=
  if bool_decide (size (newTransactions (table w)) = 0%nat) then w
  else
    let app' :=
      handleUpdateInventory env (app w) (newTransactions (table w))
                            (date (table w)) in
    let s := table w in
    let cleared :=
      {| selectedItemIds := selectedItemIds s;
         committedTransactions := committedTransactions s;
         newTransactions := ∅;
         drafts := delete (date s) (drafts s);
         activeRows := activeRows s;
         selectedAddItem := selectedAddItem s;
         date := date s |} in
    {| app := app'; table := historyEffect (history app') cleared |}.

(** The commands of the transaction table other than the commit: those
    that work on the draft, and the form that adds a department. *)
Inductive StagingOp :=
  | AddDepartment (name uuid : string)
  | StartAdding (itemId : string)
  | CancelAdding (itemId : string)
  | SetRowDept (itemId deptId : string)
  | SetRowType (itemId : string) (ty : TransactionType)
  | SetRowQty (itemId qty : string)
  | SaveTransaction (itemId : string)
  | RemoveDraft (itemId deptId : string) (ty : TransactionType)
  | SelectAddItem (itemId : string)
  | AddItemRow
  | RemoveItemRow (itemId : string) (confirmed : bool)
  | SwitchDate (newDate : string).

Definition stagingTable (a : AppState) (s : TableState) (op : StagingOp)
    : TableState :=
  match op with
  | AddDepartment _ _ => s
  | StartAdding i => startAddingTransaction (departments a) s i
  | CancelAdding i => cancelAddingTransaction s i
  | SetRowDept i d =>
      editActiveRow (fun r => mkRow d (row_type r) (row_qty r)) s i
  | SetRowType i ty =>
      editActiveRow (fun r => mkRow (row_deptId r) ty (row_qty r)) s i
  | SetRowQty i q =>
      editActiveRow (fun r => mkRow (row_deptId r) (row_type r) q) s i
  | SaveTransaction i => saveTransaction s i
  | RemoveDraft i d ty => removeDraftTransaction s i d ty
  | SelectAddItem i => setSelectedAddItem s i
  | AddItemRow => handleAddItemRow s
  | RemoveItemRow i c => handleRemoveItemRow s i c
  | SwitchDate d => switchDate (history a) s d
  end.

(** The table holds [items], [departments] and [history] as props; of these
    commands only the department form calls back into the App component,
    with the trimmed name that was typed ([onAddDepartment]). *)
Definition stagingApp (a : AppState) (op : StagingOp) : AppState :=
  match op with
  | AddDepartment name uuid => handleAddDepartment a name uuid
  | _ => a
  end.

Definition runStaging (w : World) (op : StagingOp) : World :=
  {| app := stagingApp (app w) op;
     table := stagingTable (app w) (table w) op |}.

Definition emptyTable (today : string) : TableState :=
  {| selectedItemIds := [];
     committedTransactions := ∅;
     newTransactions := ∅;
     drafts := ∅;
     activeRows := ∅;
     selectedAddItem := "";
     date := today |}.

(** ** Vocabulary of the properties *)

Definition sumZ {A} (f : A -> Z) (l : list A) : Z :=
  foldr (fun x acc => f x + acc) 0 l.

(** *** The catalog *)

(** [getItem(id)]: the first item of the array with that id. *)
Definition getItem (id : string) (its : list InventoryItem)
    : option InventoryItem :=
  snd <$> list_find (fun i => item_id i = id) its.

Definition quantityOf (id : string) (its : list InventoryItem) : option Z :=
  item_quantity <$> getItem id its.

(** Whether the catalog has an item with that id. *)
Definition known (its : list InventoryItem) (id : string) : bool :=
  bool_decide (id ∈ item_id <$> its).

(** *** Drafts *)

(** The cell of a matrix for an item and a department, when it has one. *)
Definition cellAt (matrix : TransactionMatrix) (itemId deptId : string)
    : option Cell :=
  default ∅ (matrix !! itemId) !! deptId.

(** The amount of a matrix in one cell and direction; an absent cell is
    [{ in: 0, out: 0 }]. *)
Definition draftQty (matrix : TransactionMatrix) (itemId deptId : string)
    (ty : TransactionType) : Z :=
  from_option (cellQty ty) 0 (default ∅ (matrix !! itemId) !! deptId).

(** What a draft stages for one item: [Σ(in)], [Σ(out)] and the net change
    over the department entries of its row. *)
Definition sumIn (row : DeptTrans) : Z :=
  sumZ (fun f => inQty f.2) (map_to_list row).

Definition sumOut (row : DeptTrans) : Z :=
  sumZ (fun f => outQty f.2) (map_to_list row).

Definition netChange (row : DeptTrans) : Z := sumIn row - sumOut row.

Definition draftIn (matrix : TransactionMatrix) (itemId : string) : Z :=
  from_option sumIn 0 (matrix !! itemId).

Definition draftOut (matrix : TransactionMatrix) (itemId : string) : Z :=
  from_option sumOut 0 (matrix !! itemId).

(** The amounts of a draft are those of the data model: none is negative. *)
Definition nonnegMatrix (matrix : TransactionMatrix) : Prop :=
  map_Forall (fun _ row =>
    map_Forall (fun _ c => 0 <= inQty c /\ 0 <= outQty c) (row : DeptTrans))
    matrix.


(** Every cell of a draft holds amounts that are not negative and not both
    zero. *)
Definition cellsStaged (matrix : TransactionMatrix) : Prop :=
  forall i d c, cellAt matrix i d = Some c ->
    0 <= inQty c /\ 0 <= outQty c /\ ~ (inQty c = 0 /\ outQty c = 0).

(** No row of a draft is an empty object. *)
Definition rowsStaged (matrix : TransactionMatrix) : Prop :=
  forall i row, matrix !! i = Some row -> row <> ∅.

(** The draft on screen and every saved draft have only staged cells. *)
Definition tableStaged (s : TableState) : Prop :=
  cellsStaged (newTransactions s)
  /\ forall D dr, drafts s !! D = Some dr ->
       cellsStaged (draft_newTransactions dr).

(** A command of the table other than a switch of the date. *)
Definition keepsDate (op : StagingOp) : bool :=
  match op with
  | SwitchDate _ => false
  | _ => true
  end.

(** *** The ledger *)

(** What a ledger record says apart from its id, its time stamp and the
    names it copies. *)
Record Movement := mkMove {
  mv_date : string;
  mv_itemId : string;
  mv_deptId : string;
  mv_type : TransactionType;
  mv_qty : Z
}.

Definition movement (r : TransactionRecord) : Movement :=
  {| mv_date := rec_date r; mv_itemId := rec_itemId r;
     mv_deptId := rec_departmentId r; mv_type := rec_type r;
     mv_qty := rec_quantity r |}.

(** The movements that one cell, and one row, of a draft stand for. *)
Definition cellMoves (date itemId : string) (f : string * Cell)
    : list Movement :=
  (if bool_decide (0 < inQty f.2)
   then [mkMove date itemId f.1 TIn (inQty f.2)] else [])
  ++ (if bool_decide (0 < outQty f.2)
      then [mkMove date itemId f.1 TOut (outQty f.2)] else []).

Definition rowMoves (date : string) (its : list InventoryItem)
    (e : string * DeptTrans) : list Movement :=
  if known its e.1 then flat_map (cellMoves date e.1) (map_to_list e.2) else [].

(** The records of a ledger for one (item, department, direction). *)
Definition recordsFor (itemId deptId : string) (ty : TransactionType)
    (recs : list TransactionRecord) : list TransactionRecord :=
  filter (fun r => rec_itemId r = itemId /\ rec_departmentId r = deptId
                   /\ rec_type r = ty) recs.



(** What the ledger records for an item in one direction. *)
Definition ledgerQty (itemId : string) (ty : TransactionType)
    (hist : list TransactionRecord) : Z :=
  sumZ (fun r => if decide (rec_itemId r = itemId /\ rec_type r = ty)
                 then rec_quantity r else 0) hist.



(** The item ids that the ledger holds for a date. *)
Definition historyItems (hist : list TransactionRecord) (targetDate : string)
    : list string :=
  (reconstructHistoryForDate hist targetDate).2.


(** *** Sequences of commits *)

(** One commit of a sequence: what [handleUpdateInventory] is called with. *)
Record Commit := mkCommit {
  c_env : Env;
  c_matrix : TransactionMatrix;
  c_date : string
}.

Definition commitAll (st : AppState) (cs : list Commit) : AppState :=
  foldl (fun st c => handleUpdateInventory (c_env c) st (c_matrix c) (c_date c))
        st cs.



(** *** Sample data *)

(** The scenario of the specification: item [i1] with quantity 10,
    department [d1], and 3 in and 1 out staged for [(i1, d1)]. *)
Definition item1 : InventoryItem :=
  mkItem "i1" "Widget" "w.png" "pcs" 10 None Warehouse2 None None "t0".

Definition dept1 : Department := mkDept "d1" "Kitchen".

Definition env1 : Env :=
  mkEnv "t1" (fun n => String (ascii_of_nat (48 + n)) EmptyString).

Definition store1 : AppState := mkApp [item1] [dept1] [].

Definition draft1 : TransactionMatrix := {[ "i1" := {[ "d1" := mkCell 3 1 ]} ]}.

(** A draft for an item that the catalog does not hold. *)
Definition draftGhost : TransactionMatrix :=
  {[ "ghost" := {[ "d1" := mkCell 3 0 ]} ]}.

(** A draft with a negative amount. *)
Definition draftNegative : TransactionMatrix :=
  {[ "i1" := {[ "d1" := mkCell (-3) 0 ]} ]}.

(** A record [{ type: 'in', quantity: 5 }] on item [i1], and its store. *)
Definition record1 : TransactionRecord :=
  mkRecord "r1" "2024-05-01" "i1" "Widget" "w.png" "d1" "Kitchen" TIn 5 "t0".

Definition store2 : AppState := mkApp [item1] [dept1] [record1].


(** A table with one staged entry: 3 in for [(i1, d1)] on 2024-05-01. *)
Definition table1 : TableState :=
  {| selectedItemIds := ["i1"];
     committedTransactions := ∅;
     newTransactions := {[ "i1" := {[ "d1" := mkCell 3 0 ]} ]};
     drafts := ∅;
     activeRows := ∅;
     selectedAddItem := "";
     date := "2024-05-01" |}.

(** Backup payloads: one with array-shaped collections, one without. *)
Definition payloadArrays : json :=
  JObj {[ "items" := JArr [JStr "a"]; "departments" := JArr [] ]}.


Definition rawStore1 : RawStore :=
  mkRaw (Some (JArr [])) (Some (JArr [])) (Some (JArr [])).

(** * The rest of the components *)

(** ** InventoryForm component *)

(** The fields of the form. *)
Record FormState := mkForm {
  form_name : string;
  form_unit : string;
  form_quantity : Z;
  form_minStock : Z;
  form_location : WarehouseType;
  form_productionDate : string;
  form_expiryDate : string;
  form_image : string
}.

Global Instance WarehouseType_eq_dec : EqDecision WarehouseType.
Proof. solve_decision. Defined.

(** The effect that fills the form from [initialData]:
    [initialData.minStock || 0], [initialData.productionDate || '']. *)
Definition loadForm (initialData : InventoryItem) : FormState :=
  {| form_name := item_name initialData;
     form_unit := item_unit initialData;
     form_quantity := item_quantity initialData;
     form_minStock := default 0 (item_minStock initialData);
     form_location := item_location initialData;
     form_productionDate := default "" (item_productionDate initialData);
     form_expiryDate := default "" (item_expiryDate initialData);
     form_image := item_image initialData |}.

(** [resetForm] *)
Definition resetForm : FormState :=
  {| form_name := ""; form_unit := "pcs"; form_quantity := 0;
     form_minStock := 0; form_location := Warehouse1;
     form_productionDate := ""; form_expiryDate := "";
     form_image := "https://picsum.photos/200/200" |}.

(** The item that the form's [handleSubmit] hands to [onSubmit]; [uuid] is
    the result of [crypto.randomUUID()] and [now] that of
    [new Date().toISOString()]. *)
Definition formItem (initialData : option InventoryItem) (f : FormState)
    (uuid now : string) : InventoryItem :=
  {| item_id := match initialData with Some i => item_id i | None => uuid end;
     item_name := form_name f;
     item_image := form_image f;
     item_unit := form_unit f;
     item_quantity := form_quantity f;
     item_minStock :=
       if bool_decide (0 < form_minStock f) then Some (form_minStock f) else None;
     item_location := form_location f;
     item_productionDate :=
       match form_location f with
       | Warehouse1 => Some (form_productionDate f)
       | Warehouse2 => None
       end;
     item_expiryDate :=
       match form_location f with
       | Warehouse1 => Some (form_expiryDate f)
       | Warehouse2 => None
       end;
     item_lastUpdated := now |}.

(** An item as the data model has it: a threshold, when there is one, is
    positive, and the dates are there exactly for Warehouse 1. *)
Definition wfItem (i : InventoryItem) : Prop :=
  (forall m, item_minStock i = Some m -> 0 < m)
  /\ (is_Some (item_productionDate i) <-> item_location i = Warehouse1)
  /\ (is_Some (item_expiryDate i) <-> item_location i = Warehouse1).

(** ** App component: the catalog *)

(** The state of the inventory tab next to the store. *)
Record Inventory := mkInventory {
  store : AppState;
  editingItem : option InventoryItem;
  isFormOpen : bool;
  selectedInventoryIds : list string
}.

(** [setItems(its)] *)
Definition setItems (its : list InventoryItem) (st : AppState) : AppState :=
  {| items := its; departments := departments st; history := history st |}.

(** [handleAddItem]: the [onSubmit] of the form. *)
Definition handleAddItem (v : Inventory) (item : InventoryItem) : Inventory :=
  {| store :=
       match editingItem v with
       | Some _ =>
           setItems (map (fun i => if bool_decide (item_id i = item_id item)
                                   then item else i) (items (store v)))
                    (store v)
       | None => setItems (items (store v) ++ [item]) (store v)
       end;
     editingItem := None;
     isFormOpen := isFormOpen v;
     selectedInventoryIds := selectedInventoryIds v |}.

Definition handleEditItem (v : Inventory) (item : InventoryItem) : Inventory :=
  {| store := store v;
     editingItem := Some item;
     isFormOpen := true;
     selectedInventoryIds := selectedInventoryIds v |}.

(** The form of the App: [onSubmit(newItem); onClose()]. *)
Definition submitForm (v : Inventory) (f : FormState) (uuid now : string)
    : Inventory :=
  let v' := handleAddItem v (formItem (editingItem v) f uuid now) in
  {| store := store v';
     editingItem := None;
     isFormOpen := false;
     selectedInventoryIds := selectedInventoryIds v' |}.

(** [confirmed] is the answer to the [confirm] dialog. *)
Definition handleDeleteItem (v : Inventory) (id : string) (confirmed : bool)
    : Inventory :=
  if confirmed
  then {| store := setItems (filter (fun i => item_id i <> id) (items (store v)))
                            (store v);
          editingItem := editingItem v;
          isFormOpen := isFormOpen v;
          selectedInventoryIds :=
            filter (fun selectedId => selectedId <> id) (selectedInventoryIds v) |}
  else v.

Definition handleBulkDelete (v : Inventory) (confirmed : bool) : Inventory :=
  if bool_decide (length (selectedInventoryIds v) = 0%nat) then v
  else if confirmed
  then {| store :=
            setItems (filter (fun i => item_id i ∉ selectedInventoryIds v)
                             (items (store v))) (store v);
          editingItem := editingItem v;
          isFormOpen := isFormOpen v;
          selectedInventoryIds := [] |}
  else v.

(** [{ ...item, location: targetLocation, lastUpdated: now }] *)
Definition relocate (targetLocation : WarehouseType) (now : string)
    (i : InventoryItem) : InventoryItem :=
  {| item_id := item_id i; item_name := item_name i; item_image := item_image i;
     item_unit := item_unit i; item_quantity := item_quantity i;
     item_minStock := item_minStock i; item_location := targetLocation;
     item_productionDate := item_productionDate i;
     item_expiryDate := item_expiryDate i;
     item_lastUpdated := now |}.

Definition handleBulkMove (v : Inventory) (targetLocation : WarehouseType)
    (now : string) (confirmed : bool) : Inventory :=
  if bool_decide (length (selectedInventoryIds v) = 0%nat) then v
  else if confirmed
  then {| store :=
            setItems (map (fun item =>
                             if bool_decide (item_id item ∈ selectedInventoryIds v)
                             then relocate targetLocation now item
                             else item) (items (store v))) (store v);
          editingItem := editingItem v;
          isFormOpen := isFormOpen v;
          selectedInventoryIds := [] |}
  else v.

(** The updater of [toggleSelection]. *)
Definition toggleId (id : string) (prev : list string) : list string :=
  if bool_decide (id ∈ prev) then filter (fun i => i <> id) prev
  else prev ++ [id].

Definition toggleSelection (v : Inventory) (id : string) : Inventory :=
  {| store := store v;
     editingItem := editingItem v;
     isFormOpen := isFormOpen v;
     selectedInventoryIds := toggleId id (selectedInventoryIds v) |}.

(** [(item.minStock || 0) > 0 && item.quantity <= (item.minStock || 0)] *)
Definition isLowStock (i : InventoryItem) : bool :=
  bool_decide (0 < default 0 (item_minStock i))
  && bool_decide (item_quantity i <= default 0 (item_minStock i)).

(** [filteredItems]; [matchesSearch] stands for the test of the name and
    the location against the search box. *)
Definition filteredItems (matchesSearch : InventoryItem -> bool)
    (showLowStockOnly : bool) (its : list InventoryItem) : list InventoryItem :=
  filter (fun item =>
            (if showLowStockOnly && negb (isLowStock item) then false
             else matchesSearch item) = true) its.

Definition toggleSelectAll (v : Inventory) (shown : list InventoryItem)
    : Inventory :=
  {| store := store v;
     editingItem := editingItem v;
     isFormOpen := isFormOpen v;
     selectedInventoryIds :=
       if bool_decide (length (selectedInventoryIds v) = length shown)
          && bool_decide (0 < length shown)%nat
       then []
       else item_id <$> shown |}.

(** ** Vocabulary of the further properties *)

(** What a commit does to the catalog item of a row of the draft. *)
Definition commitUpdate (env : Env) (row : DeptTrans) (i : InventoryItem)
    : InventoryItem :=
  stamp (timestamp env) (addQuantity (netChange row) i).

(** What a record copies from the item and the department it names. *)
Definition snapshotOf (its : list InventoryItem) (depts : list Department)
    (env : Env) (r : TransactionRecord) : Prop :=
  item_name <$> getItem (rec_itemId r) its = Some (rec_itemName r)
  /\ item_image <$> getItem (rec_itemId r) its = Some (rec_itemImage r)
  /\ rec_departmentName r = deptNameOf depts (rec_departmentId r)
  /\ rec_timestamp r = timestamp env.






(** ** Backup *)

(** The JSON values of the collections of the store, as [JSON.stringify]
    writes them and [JSON.parse] reads them back; a field that is
    [undefined] is left out. *)
Definition optField (key : string) (v : option json)
    (fields : gmap string json) : gmap string json :=
  match v with
  | Some x => <[key := x]> fields
  | None => fields
  end.

Definition locationToJson (l : WarehouseType) : json :=
  match l with
  | Warehouse1 => JStr "Warehouse 1"
  | Warehouse2 => JStr "Warehouse 2"
  end.

Definition typeToJson (ty : TransactionType) : json :=
  match ty with
  | TIn => JStr "in"
  | TOut => JStr "out"
  end.

Definition itemToJson (i : InventoryItem) : json :=
  JObj (optField "minStock" (JNum <$> item_minStock i)
       (optField "productionDate" (JStr <$> item_productionDate i)
       (optField "expiryDate" (JStr <$> item_expiryDate i)
       (<["id" := JStr (item_id i)]>
       (<["name" := JStr (item_name i)]>
       (<["image" := JStr (item_image i)]>
       (<["unit" := JStr (item_unit i)]>
       (<["quantity" := JNum (item_quantity i)]>
       (<["location" := locationToJson (item_location i)]>
       (<["lastUpdated" := JStr (item_lastUpdated i)]> ∅)))))))))).

Definition deptToJson (d : Department) : json :=
  JObj (<["id" := JStr (dept_id d)]> (<["name" := JStr (dept_name d)]> ∅)).

Definition recordToJson (r : TransactionRecord) : json :=
  JObj (<["id" := JStr (rec_id r)]>
       (<["date" := JStr (rec_date r)]>
       (<["itemId" := JStr (rec_itemId r)]>
       (<["itemName" := JStr (rec_itemName r)]>
       (<["itemImage" := JStr (rec_itemImage r)]>
       (<["departmentId" := JStr (rec_departmentId r)]>
       (<["departmentName" := JStr (rec_departmentName r)]>
       (<["type" := typeToJson (rec_type r)]>
       (<["quantity" := JNum (rec_quantity r)]>
       (<["timestamp" := JStr (rec_timestamp r)]> ∅)))))))))).

(** The store as the restore handler sees a store. *)
Definition encodeStore (st : AppState) : RawStore :=
  {| raw_items := Some (JArr (itemToJson <$> items st));
     raw_departments := Some (JArr (deptToJson <$> departments st));
     raw_history := Some (JArr (recordToJson <$> history st)) |}.

(** [handleBackup]: the [data] that is written to the file, as read back. *)
Definition backupData (st : RawStore) (now : string) : json :=
  JObj (optField "items" (raw_items st)
       (optField "departments" (raw_departments st)
       (optField "history" (raw_history st)
       (<["version" := JStr "1.0"]>
       (<["timestamp" := JStr now]> ∅))))).

(** ** The transaction table as a machine *)

(** The commands of the table: those short of the commit, and the commit. *)
Inductive Command :=
  | Staging (op : StagingOp)
  | Submit (env : Env).

Definition runCommand (w : World) (c : Command) : World :=
  match c with
  | Staging op => runStaging w op
  | Submit env => handleSubmit env w
  end.

(** The table as it is mounted on a store: the initial state, and the
    effect on [history] run once. *)
Definition mount (st : AppState) (today : string) : World :=
  {| app := st; table := historyEffect (history st) (emptyTable today) |}.


(** What holds of the table in every state it reaches: no row twice, the
    committed matrix is the replay of the ledger for the date on screen,
    and the drafts hold staged cells only. *)
Definition tableInv (w : World) : Prop :=
  NoDup (selectedItemIds (table w))
  /\ committedTransactions (table w)
     = replayCommitted (history (app w)) (date (table w))
  /\ tableStaged (table w).

(** ** Sorting *)

(** [Array.prototype.sort(cmp)] is a stable sort: [a] stays before [b]
    unless [cmp(a, b) > 0].  Every stable sort gives the same array; this
    one inserts from the right. *)
Fixpoint insertBy {A} (cmp : A -> A -> Z) (x : A) (l : list A) : list A :=
  match l with
  | [] => [x]
  | y :: l' => if bool_decide (cmp x y <= 0) then x :: y :: l'
               else y :: insertBy cmp x l'
  end.

Definition sortBy {A} (cmp : A -> A -> Z) (l : list A) : list A :=
  foldr (insertBy cmp) [] l.

(** ** HistoryTable component *)

(** [filteredHistory]; [matchesSearch] stands for the test of the item and
    department names against the search box. *)
Definition filteredHistory (matchesSearch : TransactionRecord -> bool)
    (hist : list TransactionRecord) : list TransactionRecord :=
  filter (fun h => matchesSearch h = true) hist.

(** The reducer of [groupedHistory]. *)
Definition groupRecord (groups : gmap string (list TransactionRecord))
    (record : TransactionRecord) : gmap string (list TransactionRecord) :=
  <[rec_date record := default [] (groups !! rec_date record) ++ [record]]> groups.

Definition groupedHistory (filtered : list TransactionRecord)
    : gmap string (list TransactionRecord) :=
  foldl groupRecord ∅ filtered.



(** ** MonthlyReport component *)














(** ** Dashboard component *)





Definition monthlyHistory (currentMonthPrefix : string)
    (hist : list TransactionRecord) : list TransactionRecord :=
  filter (fun h => String.prefix currentMonthPrefix (rec_date h) = true) hist.


(** The body of the loop that fills [deptConsumption]. *)
Definition consume (deptConsumption : gmap string Z) (h : TransactionRecord)
    : gmap string Z :=
  match rec_type h with
  | TOut =>
      <[rec_departmentName h :=
          default 0 (deptConsumption !! rec_departmentName h) + rec_quantity h]>
        deptConsumption
  | TIn => deptConsumption
  end.

Definition deptConsumption (currentMonthPrefix : string)
    (hist : list TransactionRecord) : gmap string Z :=
  foldl consume ∅ (monthlyHistory currentMonthPrefix hist).

(** [entries.sort(([, a], [, b]) => b - a).slice(0, 5)] *)
Definition top5 (entries : list (string * Z)) : list (string * Z) :=
  take 5 (sortBy (fun a b => b.2 - a.2) entries).

(** [Object.entries(deptConsumption)] lists the names in the order of their
    first withdrawal, which [map_to_list] does not keep. *)
Definition topDepartments (currentMonthPrefix : string)
    (hist : list TransactionRecord) : list (string * Z) :=
  top5 (map_to_list (deptConsumption currentMonthPrefix hist)).













(** * Properties *)

Example parseInt_samples :
  parseInt "12" = Some 12 /\ parseInt " -7px" = Some (-7) /\
  parseInt "0x1f" = Some 31 /\ parseInt "abc" = None /\ parseInt "" = None /\
  parseInt "1.5" = Some 1.
Proof. repeat split; reflexivity. Qed.

(** ** Sums over arrays and over the entries of an object *)

Lemma sumZ_app {A} (f : A -> Z) l1 l2 :
  sumZ f (l1 ++ l2) = sumZ f l1 + sumZ f l2.
Proof. induction l1 as [|x l1 IH]; simpl; [done | rewrite IH; lia]. Qed.

Lemma sumZ_perm {A} (f : A -> Z) l1 l2 :
  l1 ≡ₚ l2 -> sumZ f l1 = sumZ f l2.
Proof. induction 1; simpl; lia. Qed.

Lemma sumZ_ext {A} (f g : A -> Z) l :
  (forall x, x ∈ l -> f x = g x) -> sumZ f l = sumZ g l.
Proof.
  induction l as [|x l IH]; simpl; intros H; [done|].
  rewrite (H x) by left. rewrite IH; [done|].
  intros y Hy. apply H. by right.
Qed.

Lemma sumZ_fmap {A B} (h : A -> B) (f : B -> Z) l :
  sumZ f (h <$> l) = sumZ (fun x => f (h x)) l.
Proof. induction l as [|x l IH]; csimpl; [done | by rewrite IH]. Qed.

Lemma sumZ_flat_map {A B} (h : A -> list B) (f : B -> Z) l :
  sumZ f (flat_map h l) = sumZ (fun x => sumZ f (h x)) l.
Proof.
  induction l as [|x l IH]; simpl; [done|]. by rewrite sumZ_app, IH.
Qed.

Lemma sumZ_zero {A} (f : A -> Z) l :
  (forall x, x ∈ l -> f x = 0) -> sumZ f l = 0.
Proof.
  induction l as [|x l IH]; simpl; intros H; [done|].
  rewrite (H x) by left. rewrite IH; [done|].
  intros y Hy. apply H. by right.
Qed.

(** Summing over the entries of an object what only one key contributes
    reads that key. *)
Lemma sumZ_at_key {V} (g : V -> Z) (k : string) (m : gmap string V) :
  sumZ (fun e => if decide (e.1 = k) then g e.2 else 0) (map_to_list m)
  = from_option g 0 (m !! k).
Proof.
  induction m as [|i x m Hi IH] using map_ind.
  - by rewrite map_to_list_empty, lookup_empty.
  - rewrite (sumZ_perm _ _ _ (map_to_list_insert m i x Hi)). simpl.
    rewrite IH. destruct (decide (i = k)) as [->|Hne].
    + rewrite lookup_insert_eq, Hi. simpl. lia.
    + by rewrite lookup_insert_ne.
Qed.

Lemma length_filter_sumZ {A} (P : A -> Prop) `{!forall x, Decision (P x)} l :
  Z.of_nat (length (filter P l)) = sumZ (fun x => if decide (P x) then 1 else 0) l.
Proof.
  induction l as [|x l IH]; simpl; [done|].
  rewrite filter_cons. destruct (decide (P x)); simpl; lia.
Qed.

(** ** The catalog *)

Lemma getItem_cons id x its :
  getItem id (x :: its) = if decide (item_id x = id) then Some x else getItem id its.
Proof.
  unfold getItem. simpl. destruct (decide (item_id x = id)); [done|].
  by destruct (list_find _ its) as [[??]|].
Qed.

Lemma getItem_known id its : is_Some (getItem id its) <-> known its id = true.
Proof.
  unfold known. rewrite bool_decide_eq_true.
  induction its as [|x its IH].
  - split; [by intros [??] | by intros ?%elem_of_nil].
  - rewrite getItem_cons, fmap_cons, elem_of_cons.
    destruct (decide (item_id x = id)) as [->|Hne].
    + split; eauto.
    + rewrite IH. split; [by right | by intros [?|?]; [congruence|]].
Qed.

Lemma list_find_getItem id its n it :
  list_find (fun i => item_id i = id) its = Some (n, it) -> getItem id its = Some it.
Proof. unfold getItem. by intros ->. Qed.

Lemma list_find_getItem_None id its :
  list_find (fun i => item_id i = id) its = None -> getItem id its = None.
Proof. unfold getItem. by intros ->. Qed.

(** Overwriting the item found for [k] by one with the same id. *)
Lemma getItem_insert_found id k its n it it' :
  list_find (fun i => item_id i = k) its = Some (n, it) ->
  item_id it' = k ->
  getItem id (<[n := it']> its)
  = if decide (id = k) then Some it' else getItem id its.
Proof.
  revert n. induction its as [|x its IH]; intros n Hfind Hid; [done|].
  simpl in Hfind. destruct (decide (item_id x = k)) as [Hx|Hx].
  - simplify_eq. simpl. rewrite !getItem_cons.
    destruct (decide (id = item_id it)) as [->|Hne].
    + rewrite Hid. by rewrite decide_True.
    + rewrite Hid. by rewrite !decide_False by congruence.
  - destruct (list_find _ its) as [[n' y]|] eqn:Hf; simpl in Hfind; [|done].
    injection Hfind as <- <-. simpl.
    rewrite !getItem_cons, (IH n' eq_refl Hid).
    destruct (decide (id = k)) as [->|Hne].
    + by rewrite decide_False by done.
    + done.
Qed.

Lemma known_insert_found k its n it it' :
  list_find (fun i => item_id i = k) its = Some (n, it) ->
  item_id it' = k ->
  item_id <$> <[n := it']> its = item_id <$> its.
Proof.
  intros [Hn [Hk _]]%list_find_Some Hid.
  rewrite list_fmap_insert. apply list_insert_id.
  rewrite list_lookup_fmap, Hn. simpl. congruence.
Qed.

Lemma list_find_known k its n it :
  list_find (fun i => item_id i = k) its = Some (n, it) -> known its k = true.
Proof. intros H. apply getItem_known. rewrite (list_find_getItem _ _ _ _ H). eauto. Qed.

Lemma list_find_unknown k its :
  list_find (fun i => item_id i = k) its = None -> known its k = false.
Proof.
  intros H. apply not_true_is_false. intros [x Hx]%getItem_known.
  by rewrite (list_find_getItem_None _ _ H) in Hx.
Qed.

(** ** The commit loops *)

Section commit_loops.
Context (env : Env) (depts : list Department) (date : string).

Lemma commitDept_net item itemId l n recs :
  (foldl (commitDept env depts date item itemId) (n, recs) l).1
  = n + (sumZ (fun f => inQty f.2) l - sumZ (fun f => outQty f.2) l).
Proof.
  revert n recs. induction l as [|f l IH]; intros n recs; simpl; [lia|].
  unfold commitDept at 2. simpl. rewrite IH. lia.
Qed.

Lemma commitDept_moves item itemId l n recs :
  movement <$> (foldl (commitDept env depts date item itemId) (n, recs) l).2
  = (movement <$> recs) ++ flat_map (cellMoves date itemId) l.
Proof.
  revert n recs. induction l as [|f l IH]; intros n recs; simpl.
  - by rewrite app_nil_r.
  - unfold commitDept at 2. simpl. rewrite IH. unfold cellMoves at 2.
    unfold pushRecord.
    repeat case_bool_decide; rewrite ?fmap_app; simpl;
      rewrite <- ?app_assoc; simpl; by rewrite ?app_nil_r.
Qed.

(** One item of the matrix: the quantity of the catalog item [id]. *)
Lemma commitItem_quantity id its recs e :
  quantityOf id (commitItem env depts date (its, recs) e).1
  = (fun q => q + (if decide (e.1 = id) then netChange e.2 else 0))
      <$> quantityOf id its.
Proof.
  unfold commitItem, quantityOf. simpl.
  destruct (list_find _ its) as [[n it]|] eqn:Hfind; simpl.
  - pose proof (list_find_getItem _ _ _ _ Hfind) as Hget.
    assert (Hid : item_id it = e.1) by (by apply list_find_Some in Hfind as (_ & ? & _)).
    rewrite (getItem_insert_found id e.1 its n it) by done.
    destruct (decide (id = e.1)) as [->|Hne].
    + rewrite decide_True by done. rewrite Hget. simpl.
      rewrite commitDept_net. unfold netChange, sumIn, sumOut. f_equal; lia.
    + rewrite decide_False by done.
      destruct (getItem id its); simpl; f_equal; lia.
  - destruct (decide (e.1 = id)) as [<-|Hne].
    + by rewrite (list_find_getItem_None _ _ Hfind).
    + destruct (getItem id its); simpl; f_equal; lia.
Qed.

Lemma commitItem_ids its recs e :
  item_id <$> (commitItem env depts date (its, recs) e).1 = item_id <$> its.
Proof.
  unfold commitItem. simpl.
  destruct (list_find _ its) as [[n it]|] eqn:Hfind; simpl; [|done].
  apply (known_insert_found e.1 its n it); [done|].
  by apply list_find_Some in Hfind as (_ & ? & _).
Qed.

Lemma commitItem_moves its recs e :
  movement <$> (commitItem env depts date (its, recs) e).2
  = (movement <$> recs) ++ rowMoves date its e.
Proof.
  unfold commitItem, rowMoves. simpl.
  destruct (list_find _ its) as [[n it]|] eqn:Hfind; simpl.
  - by rewrite (list_find_known _ _ _ _ Hfind), commitDept_moves.
  - by rewrite (list_find_unknown _ _ Hfind), app_nil_r.
Qed.

Lemma known_ids its its' id :
  item_id <$> its' = item_id <$> its -> known its' id = known its id.
Proof. unfold known. by intros ->. Qed.

Lemma commitItem_fold_quantity id l its recs :
  quantityOf id (foldl (commitItem env depts date) (its, recs) l).1
  = (fun q => q + sumZ (fun e => if decide (e.1 = id) then netChange e.2 else 0) l)
      <$> quantityOf id its.
Proof.
  revert its recs. induction l as [|e l IH]; intros its recs; simpl.
  - destruct (quantityOf id its); simpl; f_equal; lia.
  - destruct (commitItem env depts date (its, recs) e) as [its' recs'] eqn:He.
    rewrite IH. replace its' with (commitItem env depts date (its, recs) e).1
      by (by rewrite He).
    rewrite commitItem_quantity.
    destruct (quantityOf id its); simpl; f_equal; lia.
Qed.


Lemma commitItem_fold_moves l its recs :
  movement <$> (foldl (commitItem env depts date) (its, recs) l).2
  = (movement <$> recs) ++ flat_map (rowMoves date its) l.
Proof.
  revert its recs. induction l as [|e l IH]; intros its recs; simpl.
  - by rewrite app_nil_r.
  - destruct (commitItem env depts date (its, recs) e) as [its' recs'] eqn:He.
    rewrite IH.
    replace recs' with (commitItem env depts date (its, recs) e).2
      by (by rewrite He).
    rewrite commitItem_moves, <- app_assoc. f_equal. f_equal.
    assert (Hids : item_id <$> its' = item_id <$> its).
    { replace its' with (commitItem env depts date (its, recs) e).1
        by (by rewrite He). apply commitItem_ids. }
    apply flat_map_ext. intros e'. unfold rowMoves.
    by rewrite (known_ids _ _ _ Hids).
Qed.
End commit_loops.

(** The quantity of an item after one commit. *)
Lemma commit_quantity env st matrix date id :
  quantityOf id (items (handleUpdateInventory env st matrix date))
  = (fun q => q + draftIn matrix id - draftOut matrix id)
      <$> quantityOf id (items st).
Proof.
  unfold handleUpdateInventory, commitLoop. simpl.
  rewrite commitItem_fold_quantity, sumZ_at_key.
  unfold draftIn, draftOut, netChange.
  destruct (quantityOf id (items st)); simpl; [|done].
  f_equal. destruct (matrix !! id); simpl; lia.
Qed.


(** The records a commit creates, up to ids, time stamp and names. *)
Lemma commit_moves env st matrix date :
  movement <$> (commitLoop env st matrix date).2
  = flat_map (rowMoves date (items st)) (map_to_list matrix).
Proof. unfold commitLoop. by rewrite commitItem_fold_moves. Qed.

(** ** Conservation of quantity *)


Lemma cellMoves_spec date i f mv :
  mv ∈ cellMoves date i f ->
  mv_date mv = date /\ mv_itemId mv = i /\ mv_deptId mv = f.1
  /\ mv_qty mv = cellQty (mv_type mv) f.2 /\ 0 < mv_qty mv.
Proof.
  unfold cellMoves. intros H. apply elem_of_app in H as [H|H];
    case_bool_decide; try (by apply elem_of_nil in H);
    apply list_elem_of_singleton in H; subst mv; simpl; done.
Qed.

Lemma rowMoves_spec date its e mv :
  mv ∈ rowMoves date its e ->
  known its e.1 = true /\
  exists f, f ∈ map_to_list e.2 /\ mv ∈ cellMoves date e.1 f.
Proof.
  unfold rowMoves. destruct (known its e.1); [|by intros ?%elem_of_nil].
  intros H. split; [done|].
  apply list_elem_of_In, in_flat_map in H as (f & Hf & Hmv).
  exists f. by rewrite !list_elem_of_In.
Qed.

(** A sum over the records of a commit that only looks at one item reads
    the row of that item. *)
Lemma sumZ_rowMoves (g : Movement -> Z) date its (matrix : TransactionMatrix) id :
  (forall mv, mv_itemId mv <> id -> g mv = 0) ->
  sumZ g (flat_map (rowMoves date its) (map_to_list matrix))
  = if known its id
    then from_option
           (fun row : DeptTrans =>
              sumZ (fun f => sumZ g (cellMoves date id f)) (map_to_list row))
           0 (matrix !! id)
    else 0.
Proof.
  intros Hg. rewrite sumZ_flat_map.
  set (G := fun row : DeptTrans =>
    if known its id
    then sumZ (fun f => sumZ g (cellMoves date id f)) (map_to_list row)
    else 0).
  rewrite (sumZ_ext _ (fun e => if decide (e.1 = id) then G e.2 else 0)).
  - rewrite (sumZ_at_key G). unfold G. destruct (known its id); [done|].
    by destruct (matrix !! id).
  - intros e _. destruct (decide (e.1 = id)) as [<-|Hne].
    + unfold rowMoves, G. destruct (known its e.1); [|done].
      by rewrite sumZ_flat_map.
    + apply sumZ_zero. intros mv Hmv. apply Hg.
      apply rowMoves_spec in Hmv as (_ & f & _ & Hmv).
      apply cellMoves_spec in Hmv as (_ & ? & _). congruence.
Qed.

(** The ledger gains, for a known item, the positive amounts of its row. *)
Lemma commit_ledgerQty env st matrix date id ty :
  ledgerQty id ty (history (handleUpdateInventory env st matrix date))
  = ledgerQty id ty (history st)
    + if known (items st) id
      then from_option
             (fun row : DeptTrans =>
                sumZ (fun f => Z.max 0 (cellQty ty f.2)) (map_to_list row))
             0 (matrix !! id)
      else 0.
Proof.
  unfold ledgerQty, handleUpdateInventory. simpl. rewrite sumZ_app.
  rewrite Z.add_comm. f_equal.
  set (gm := fun mv => if decide (mv_itemId mv = id /\ mv_type mv = ty)
                       then mv_qty mv else 0).
  trans (sumZ gm (movement <$> (commitLoop env st matrix date).2)).
  { by rewrite sumZ_fmap. }
  rewrite commit_moves, (sumZ_rowMoves gm _ _ _ id); unfold gm.
  - destruct (known (items st) id); [|done].
    destruct (matrix !! id) as [row|]; simpl; [|done].
    apply sumZ_ext. intros f _. unfold cellMoves.
    destruct ty; repeat case_bool_decide; simpl;
      repeat case_decide; simpl; try lia; exfalso; intuition congruence.
  - intros mv Hne. rewrite decide_False; [done | tauto].
Qed.

Lemma nonneg_row_sum (matrix : TransactionMatrix) id ty :
  nonnegMatrix matrix ->
  from_option
    (fun row : DeptTrans =>
       sumZ (fun f => Z.max 0 (cellQty ty f.2)) (map_to_list row))
    0 (matrix !! id)
  = match ty with TIn => draftIn matrix id | TOut => draftOut matrix id end.
Proof.
  intros Hnn. unfold draftIn, draftOut, sumIn, sumOut.
  destruct (matrix !! id) as [row|] eqn:Hrow; simpl; [|by destruct ty].
  specialize (Hnn id row Hrow). simpl in Hnn.
  destruct ty; apply sumZ_ext; intros [d c] Hf;
    apply elem_of_map_to_list in Hf; specialize (Hnn d c Hf); simpl in *; lia.
Qed.

(** Conservation read off the ledger: when no staged amount is negative, the
    quantity of an item moves by what the ledger gained for it. *)
Lemma conservation_on_ledger st cs id :
  Forall (fun c => nonnegMatrix (c_matrix c)) cs ->
  quantityOf id (items (commitAll st cs))
  = (fun q0 => q0
        + (ledgerQty id TIn (history (commitAll st cs))
           - ledgerQty id TIn (history st))
        - (ledgerQty id TOut (history (commitAll st cs))
           - ledgerQty id TOut (history st)))
      <$> quantityOf id (items st).
Proof.
  intros Hnn. revert st. induction Hnn as [|c cs Hc Hcs IH]; intros st; simpl.
  - destruct (quantityOf id (items st)); simpl; f_equal; lia.
  - rewrite IH, commit_quantity. rewrite !commit_ledgerQty.
    destruct (quantityOf id (items st)) as [q|] eqn:Hq; simpl; [|done].
    assert (Hk : known (items st) id = true).
    { apply getItem_known. unfold quantityOf in Hq.
      destruct (getItem id (items st)); [eauto | done]. }
    pose proof (nonneg_row_sum _ id TIn Hc) as HIn.
    pose proof (nonneg_row_sum _ id TOut Hc) as HOut.
    simpl in HIn, HOut. rewrite Hk, HIn, HOut. f_equal; lia.
Qed.

(** ** Records of a commit *)



Lemma draftQty_lookup (matrix : TransactionMatrix) i (row : DeptTrans) d c ty :
  matrix !! i = Some row -> row !! d = Some c ->
  draftQty matrix i d ty = cellQty ty c.
Proof. unfold draftQty. intros -> ?. simpl. by rewrite H. Qed.

(** The number of records of a commit for one (item, department,
    direction). *)
Lemma commit_count env st matrix date i d ty :
  length (recordsFor i d ty (commitLoop env st matrix date).2)
  = if known (items st) i && bool_decide (0 < draftQty matrix i d ty)
    then 1%nat else 0%nat.
Proof.
  apply Nat2Z.inj. unfold recordsFor. rewrite length_filter_sumZ.
  set (gm := fun mv =>
    if decide (mv_itemId mv = i /\ mv_deptId mv = d /\ mv_type mv = ty)
    then 1 else 0).
  trans (sumZ gm (movement <$> (commitLoop env st matrix date).2)).
  { by rewrite sumZ_fmap. }
  rewrite commit_moves, (sumZ_rowMoves gm _ _ _ i).
  2:{ intros mv Hne. unfold gm. rewrite decide_False; [done | tauto]. }
  destruct (known (items st) i); simpl; [|done].
  unfold draftQty. destruct (matrix !! i) as [row|]; simpl.
  2:{ by rewrite lookup_empty. }
  set (G := fun c : Cell => if bool_decide (0 < cellQty ty c) then 1 else 0).
  rewrite (sumZ_ext _ (fun f => if decide (f.1 = d) then G f.2 else 0)).
  - rewrite (sumZ_at_key G). unfold G.
    destruct (row !! d) as [c|]; simpl.
    + by case_bool_decide.
    + done.
  - intros f _. unfold cellMoves, gm, G.
    destruct ty; repeat case_bool_decide; simpl;
      repeat case_decide; simpl; try lia; exfalso; intuition congruence.
Qed.

Lemma commit_record_fields env st matrix date r :
  r ∈ (commitLoop env st matrix date).2 ->
  known (items st) (rec_itemId r) = true
  /\ rec_date r = date
  /\ 0 < rec_quantity r
  /\ rec_quantity r
     = draftQty matrix (rec_itemId r) (rec_departmentId r) (rec_type r).
Proof.
  intros Hr.
  assert (Hmv : movement r ∈ movement <$> (commitLoop env st matrix date).2).
  { apply list_elem_of_fmap. eauto. }
  rewrite commit_moves in Hmv.
  apply list_elem_of_In, in_flat_map in Hmv as ([k row] & He & Hmv).
  apply list_elem_of_In, elem_of_map_to_list in He.
  apply list_elem_of_In, rowMoves_spec in Hmv as (Hk & [d c] & Hf & Hmv).
  apply elem_of_map_to_list in Hf.
  apply cellMoves_spec in Hmv as (Hdate & Hi & Hd & Hq & Hpos).
  simpl in *. subst.
  rewrite (draftQty_lookup matrix _ row _ c) by done. done.
Qed.

(** C2 (as the code has it). Commit record granularity: the ledger gains,
    in front of the old records, exactly one record for each (item,
    department, direction) whose item is in the catalog and whose amount in
    the draft is positive, and none for any other triple; a cell with both a
    positive in and a positive out gives two records, and each record
    carries the date of the commit and the amount of the draft. *)
Theorem commit_record_granularity env st matrix date :
  history (handleUpdateInventory env st matrix date)
  = (commitLoop env st matrix date).2 ++ history st
  /\ (forall i d ty,
        length (recordsFor i d ty (commitLoop env st matrix date).2)
        = if known (items st) i && bool_decide (0 < draftQty matrix i d ty)
          then 1%nat else 0%nat)
  /\ (forall r, r ∈ (commitLoop env st matrix date).2 ->
        rec_date r = date
        /\ rec_quantity r
           = draftQty matrix (rec_itemId r) (rec_departmentId r) (rec_type r)).
Proof.
  split; [done|]. split.
  - intros i d ty. apply commit_count.
  - intros r Hr. apply commit_record_fields in Hr. tauto.
Qed.

(** C2 as stated fails: a nonzero amount staged for an item that the catalog
    does not hold gives no record, and neither does a negative amount. *)
Lemma commit_record_granularity_counterexample :
  (draftQty draftGhost "ghost" "d1" TIn = 3
   /\ recordsFor "ghost" "d1" TIn
        (commitLoop env1 store1 draftGhost "2024-05-01").2 = [])
  /\ (draftQty draftNegative "i1" "d1" TIn = -3
      /\ recordsFor "i1" "d1" TIn
           (commitLoop env1 store1 draftNegative "2024-05-01").2 = []).
Proof. by vm_compute. Qed.

(** ** Validation at commit *)



(** ** Items that the catalog does not hold *)



(** A draft for an item that the catalog does not hold: the commit changes
    nothing. *)
Example commit_ghost :
  handleUpdateInventory env1 store1 draftGhost "2024-05-01" = store1.
Proof. by vm_compute. Qed.


(** ** Replay of the ledger *)


Lemma replayRecord_row m ids r i :
  is_Some ((replayRecord (m, ids) r).1 !! i)
  <-> is_Some (m !! i) \/ rec_itemId r = i.
Proof.
  unfold replayRecord. simpl.
  destruct (decide (rec_itemId r = i)) as [Hi|Hi].
  - rewrite Hi, lookup_insert_eq. split; eauto.
  - rewrite lookup_insert_ne by done. tauto.
Qed.



Lemma replay_fold_row l m ids i :
  is_Some ((foldl replayRecord (m, ids) l).1 !! i)
  <-> is_Some (m !! i) \/ exists r, r ∈ l /\ rec_itemId r = i.
Proof.
  revert m ids. induction l as [|r l IH]; intros m ids; simpl.
  - split; [eauto|]. intros [?|(r & Hr & _)]; [done|]. by apply elem_of_nil in Hr.
  - destruct (replayRecord (m, ids) r) as [m1 ids1] eqn:Hr.
    rewrite IH. replace m1 with (replayRecord (m, ids) r).1 by (by rewrite Hr).
    rewrite replayRecord_row. split.
    + intros [[?|?]|(r' & ? & ?)]; [by left| |].
      * right. exists r. split; [by left | done].
      * right. exists r'. split; [by right | done].
    + intros [?|(r' & [->|?]%elem_of_cons & ?)]; [by left; left|by left; right|].
      right. eauto.
Qed.




Lemma replay_row hist D i :
  is_Some (replayCommitted hist D !! i)
  <-> exists r, r ∈ hist /\ rec_date r = D /\ rec_itemId r = i.
Proof.
  unfold replayCommitted, reconstructHistoryForDate.
  rewrite replay_fold_row, lookup_empty. split.
  - intros [[? ?]|(r & Hr & ?)]; [done|].
    apply list_elem_of_filter in Hr as [? ?]. eauto.
  - intros (r & ? & ? & ?). right. exists r. split; [|done].
    by apply list_elem_of_filter.
Qed.




(** ** Commit, then replay *)






(** The commit of the table: the draft of the date is cleared, and the
    committed matrix on screen is the replay of the new ledger. *)
Lemma handleSubmit_clears_draft env w :
  newTransactions (table w) <> ∅ ->
  let w' := handleSubmit env w in
  app w' = handleUpdateInventory env (app w) (newTransactions (table w))
                                 (date (table w))
  /\ newTransactions (table w') = ∅
  /\ drafts (table w') !! date (table w) = None
  /\ date (table w') = date (table w)
  /\ committedTransactions (table w')
     = replayCommitted (history (app w')) (date (table w)).
Proof.
  intros Hne. unfold handleSubmit.
  rewrite bool_decide_false by (by rewrite map_size_empty_iff).
  simpl. by rewrite lookup_delete_eq.
Qed.

(** The scenario of the specification: item [i1] with quantity 10, 3 in and
    1 out staged for [(i1, d1)] on 2024-05-01; the commit creates two
    records, the quantity becomes 12 and the date replays to
    [{ i1: { d1: { in: 3, out: 1 } } }]. *)
Example commit_scenario :
  let st' := handleUpdateInventory env1 store1 draft1 "2024-05-01" in
  length (history st') = 2%nat
  /\ quantityOf "i1" (items st') = Some 12
  /\ replayCommitted (history st') "2024-05-01"
     = {[ "i1" := {[ "d1" := mkCell 3 1 ]} ]}.
Proof. by vm_compute. Qed.

(** ** Reversal *)





(** A record id that the ledger does not hold: nothing happens. *)
Lemma delete_unknown_record st recordId revert :
  list_find (fun r => rec_id r = recordId) (history st) = None ->
  handleDeleteHistoryRecord st recordId revert = st.
Proof. unfold handleDeleteHistoryRecord. by intros ->. Qed.

(** ** Sets of item ids *)

Lemma setAdd_elem x y s : y ∈ setAdd x s <-> y = x \/ y ∈ s.
Proof.
  unfold setAdd. case_bool_decide.
  - split; [by right|]. by intros [->|?].
  - rewrite elem_of_app, list_elem_of_singleton. tauto.
Qed.

Lemma setAdd_NoDup x s : NoDup s -> NoDup (setAdd x s).
Proof.
  unfold setAdd. intros Hs. case_bool_decide; [done|].
  apply list.NoDup_app. split; [done|]. split.
  - intros y Hy ->%list_elem_of_singleton. done.
  - apply NoDup_singleton.
Qed.

Lemma foldl_setAdd_elem l s y :
  y ∈ foldl (fun s x => setAdd x s) s l <-> y ∈ s \/ y ∈ l.
Proof.
  revert s. induction l as [|x l IH]; intros s; simpl.
  - rewrite elem_of_nil. tauto.
  - rewrite IH, setAdd_elem, elem_of_cons. tauto.
Qed.

Lemma foldl_setAdd_NoDup l s :
  NoDup s -> NoDup (foldl (fun s x => setAdd x s) s l).
Proof.
  revert s. induction l as [|x l IH]; intros s Hs; simpl; [done|].
  by apply IH, setAdd_NoDup.
Qed.

Lemma arrayFromSet_elem l y : y ∈ arrayFromSet l <-> y ∈ l.
Proof.
  unfold arrayFromSet. rewrite foldl_setAdd_elem, elem_of_nil. tauto.
Qed.

Lemma arrayFromSet_NoDup l : NoDup (arrayFromSet l).
Proof. apply foldl_setAdd_NoDup, NoDup_nil_2. Qed.

Lemma replay_fold_ids l m ids y :
  y ∈ (foldl replayRecord (m, ids) l).2
  <-> y ∈ ids \/ exists r, r ∈ l /\ rec_itemId r = y.
Proof.
  revert m ids. induction l as [|r l IH]; intros m ids; simpl.
  - split; [eauto|]. intros [?|(r & Hr & _)]; [done|]. by apply elem_of_nil in Hr.
  - destruct (replayRecord (m, ids) r) as [m1 ids1] eqn:Hr.
    rewrite IH. replace ids1 with (replayRecord (m, ids) r).2 by (by rewrite Hr).
    unfold replayRecord at 1. simpl. rewrite setAdd_elem. split.
    + intros [[->|?]|(r' & ? & ?)]; [|by left|].
      * right. exists r. split; [by left | done].
      * right. exists r'. split; [by right | done].
    + intros [?|(r' & [->|?]%elem_of_cons & ?)]; [by left; right|by left; left|].
      right. eauto.
Qed.

Lemma historyItems_elem hist D y :
  y ∈ historyItems hist D
  <-> exists r, r ∈ hist /\ rec_date r = D /\ rec_itemId r = y.
Proof.
  unfold historyItems, reconstructHistoryForDate.
  rewrite replay_fold_ids, elem_of_nil. split.
  - intros [?|(r & Hr & ?)]; [done|].
    apply list_elem_of_filter in Hr as [? ?]. eauto.
  - intros (r & ? & ? & ?). right. exists r. split; [|done].
    by apply list_elem_of_filter.
Qed.

(** ** Switching the date *)

Lemma stagingTable_keeps a s op :
  keepsDate op = true ->
  drafts (stagingTable a s op) = drafts s
  /\ date (stagingTable a s op) = date s
  /\ committedTransactions (stagingTable a s op) = committedTransactions s.
Proof.
  destruct op; simpl; intros Hop; try done.
  - unfold saveTransaction. repeat case_match; done.
  - unfold handleAddItemRow. by case_match.
  - unfold handleRemoveItemRow. by case_match.
Qed.

Lemma stagingApp_keeps a op :
  items (stagingApp a op) = items a /\ history (stagingApp a op) = history a.
Proof.
  destruct op; simpl; try done. unfold handleAddDepartment. by case_bool_decide.
Qed.

Lemma runStaging_keeps w ops :
  forallb keepsDate ops = true ->
  history (app (foldl runStaging w ops)) = history (app w)
  /\ drafts (table (foldl runStaging w ops)) = drafts (table w)
  /\ date (table (foldl runStaging w ops)) = date (table w)
  /\ committedTransactions (table (foldl runStaging w ops))
     = committedTransactions (table w).
Proof.
  revert w. induction ops as [|op ops IH]; intros w Hops; simpl; [done|].
  simpl in Hops. apply andb_true_iff in Hops as [Hop Hops].
  destruct (IH (runStaging w op) Hops) as (-> & -> & -> & ->).
  simpl. destruct (stagingApp_keeps (app w) op) as [_ ->].
  by destruct (stagingTable_keeps (app w) (table w) op Hop) as (-> & -> & ->).
Qed.

Lemma switchDate_restore hist s D draft :
  drafts s !! D = Some draft ->
  switchDate hist s D
  = {| selectedItemIds :=
         arrayFromSet (historyItems hist D ++ draft_selectedItemIds draft);
       committedTransactions := replayCommitted hist D;
       newTransactions := draft_newTransactions draft;
       drafts :=
         <[date s := {| draft_selectedItemIds := selectedItemIds s;
                        draft_newTransactions := newTransactions s;
                        draft_activeRows := activeRows s |}]> (drafts s);
       activeRows := draft_activeRows draft;
       selectedAddItem := selectedAddItem s;
       date := D |}.
Proof. unfold switchDate. by intros ->. Qed.

Lemma switchDate_snapshot hist s D :
  drafts (switchDate hist s D) !! date s
  = Some {| draft_selectedItemIds := selectedItemIds s;
            draft_newTransactions := newTransactions s;
            draft_activeRows := activeRows s |}.
Proof.
  unfold switchDate. destruct (drafts s !! D); simpl; by rewrite lookup_insert_eq.
Qed.

(** C5. Date-switch round trip: with entries staged while one date is
    active, switching to another date, working on the draft of that date,
    and switching back restores exactly the staged entries and the open
    input rows; the rows shown are, without duplicates, the items that the
    ledger holds for the date together with those of the snapshot, and the
    committed matrix is the replay of the date. *)
Theorem date_switch_round_trip w D2 ops :
  forallb keepsDate ops = true ->
  let D1 := date (table w) in
  let w1 := runStaging w (SwitchDate D2) in
  let w2 := runStaging (foldl runStaging w1 ops) (SwitchDate D1) in
  newTransactions (table w2) = newTransactions (table w)
  /\ activeRows (table w2) = activeRows (table w)
  /\ date (table w2) = D1
  /\ committedTransactions (table w2) = replayCommitted (history (app w)) D1
  /\ selectedItemIds (table w2)
     = arrayFromSet (historyItems (history (app w)) D1
                     ++ selectedItemIds (table w))
  /\ NoDup (selectedItemIds (table w2))
  /\ (forall x, x ∈ selectedItemIds (table w2)
        <-> (exists r, r ∈ history (app w) /\ rec_date r = D1
                       /\ rec_itemId r = x)
            \/ x ∈ selectedItemIds (table w)).
Proof.
  intros Hops D1 w1 w2.
  destruct (runStaging_keeps w1 ops Hops) as (Happ & Hdrafts & Hdate & _).
  pose proof (switchDate_snapshot (history (app w)) (table w) D2) as Hsnap.
  fold D1 in Hsnap.
  assert (Htable : table w2
    = switchDate (history (app w)) (table (foldl runStaging w1 ops)) D1).
  { unfold w2, runStaging at 1. cbn [table stagingTable]. rewrite Happ.
    unfold w1, runStaging. by cbn [app stagingApp]. }
  rewrite Htable, (switchDate_restore _ _ _ _ (eq_trans (f_equal (.!! D1) Hdrafts) Hsnap)).
  cbn [newTransactions activeRows date committedTransactions selectedItemIds
       draft_newTransactions draft_activeRows draft_selectedItemIds].
  repeat split; try done.
  - apply arrayFromSet_NoDup.
  - rewrite arrayFromSet_elem, elem_of_app, historyItems_elem. tauto.
  - rewrite arrayFromSet_elem, elem_of_app, historyItems_elem. tauto.
Qed.

Lemma date_switch_round_trip_witness :
  forallb keepsDate [StartAdding "i2"; SetRowQty "i2" "4"; SaveTransaction "i2"]
  = true
  /\ newTransactions
       (table (runStaging
          (foldl runStaging
             (runStaging (mkWorld store1 table1) (SwitchDate "2024-05-02"))
             [StartAdding "i2"; SetRowQty "i2" "4"; SaveTransaction "i2"])
          (SwitchDate "2024-05-01")))
     = {[ "i1" := {[ "d1" := mkCell 3 0 ]} ]}.
Proof.
  split; [reflexivity|].
  exact (proj1 (date_switch_round_trip (mkWorld store1 table1) "2024-05-02"
    [StartAdding "i2"; SetRowQty "i2" "4"; SaveTransaction "i2"] eq_refl)).
Defined.

(** ** The draft and the ledger *)

(** C6. Draft isolation: no sequence of commands of the transaction table
    short of the commit (opening, editing and saving inline forms, removing
    staged entries, adding and removing rows, switching the date, adding a
    department) changes the ledger or the items of the App component, so the
    replay of every date is the same before and after. *)
Theorem draft_isolation w ops D :
  history (app (foldl runStaging w ops)) = history (app w)
  /\ items (app (foldl runStaging w ops)) = items (app w)
  /\ replayCommitted (history (app (foldl runStaging w ops))) D
     = replayCommitted (history (app w)) D.
Proof.
  assert (Happ : history (app (foldl runStaging w ops)) = history (app w)
                 /\ items (app (foldl runStaging w ops)) = items (app w)).
  { revert w. induction ops as [|op ops IH]; intros w; simpl; [done|].
    destruct (IH (runStaging w op)) as [-> ->]. simpl.
    by destruct (stagingApp_keeps (app w) op) as [-> ->]. }
  destruct Happ as [Hh Hi]. by rewrite Hh, Hi.
Qed.

(** Saving an inline form does change the draft: the isolation is not that
    of a command without effect. *)
Lemma saveTransaction_stages :
  newTransactions
    (table (foldl runStaging (mkWorld store1 (emptyTable "2024-05-01"))
              [StartAdding "i1"; SetRowDept "i1" "d1"; SetRowType "i1" TIn;
               SetRowQty "i1" "3"; SaveTransaction "i1"]))
  = {[ "i1" := {[ "d1" := mkCell 3 0 ]} ]}.
Proof. by vm_compute. Qed.

(** ** Cleanup of the draft matrix *)

Lemma cellAt_insert_row (m : TransactionMatrix) i (row : DeptTrans) j d :
  cellAt (<[i := row]> m) j d
  = if decide (i = j) then row !! d else cellAt m j d.
Proof.
  unfold cellAt. destruct (decide (i = j)) as [->|Hne].
  - by rewrite lookup_insert_eq.
  - by rewrite lookup_insert_ne.
Qed.

Lemma cellAt_delete_row (m : TransactionMatrix) i j d :
  cellAt (delete i m) j d = if decide (i = j) then None else cellAt m j d.
Proof.
  unfold cellAt. destruct (decide (i = j)) as [->|Hne].
  - by rewrite lookup_delete_eq.
  - by rewrite lookup_delete_ne.
Qed.

Lemma cellsStaged_empty : cellsStaged ∅.
Proof. intros i d c. unfold cellAt. by rewrite lookup_empty. Qed.

Lemma stage_cellsStaged i d ty q m :
  0 < q -> cellsStaged m -> cellsStaged (stage i d ty q m).
Proof.
  intros Hq Hm j e c. unfold stage. rewrite cellAt_insert_row.
  destruct (decide (i = j)) as [<-|Hne]; [|apply Hm].
  fold (cellAt m i d). destruct (decide (d = e)) as [<-|Hde].
  - rewrite lookup_insert_eq. intros [= <-].
    destruct (cellAt m i d) as [c0|] eqn:Hc0; simpl.
    + specialize (Hm i d c0 Hc0). destruct ty; simpl; lia.
    + destruct ty; simpl; lia.
  - rewrite lookup_insert_ne by done. apply Hm.
Qed.

Lemma unstage_cellsStaged i d ty m :
  cellsStaged m -> cellsStaged (unstage i d ty m).
Proof.
  intros Hm j e c. unfold unstage. rewrite cellAt_insert_row.
  destruct (decide (i = j)) as [<-|Hne]; [|apply Hm].
  fold (cellAt m i d). destruct (cellAt m i d) as [c0|] eqn:Hc0; [|apply Hm].
  pose proof (Hm i d c0 Hc0) as H0.
  destruct (bool_decide (inQty (cellSet ty 0 c0) = 0)
            && bool_decide (outQty (cellSet ty 0 c0) = 0)) eqn:Hz.
  - destruct (decide (d = e)) as [<-|Hde].
    + by rewrite lookup_delete_eq.
    + rewrite lookup_delete_ne by done. apply (Hm i e c).
  - destruct (decide (d = e)) as [<-|Hde].
    + rewrite lookup_insert_eq. intros [= <-].
      apply andb_false_iff in Hz.
      rewrite !bool_decide_eq_false in Hz.
      destruct ty; simpl in *; lia.
    + rewrite lookup_insert_ne by done. apply (Hm i e c).
Qed.

Lemma delete_cellsStaged i m : cellsStaged m -> cellsStaged (delete i m).
Proof.
  intros Hm j e c. rewrite cellAt_delete_row.
  destruct (decide (i = j)); [done | apply Hm].
Qed.

Lemma saveTransaction_cellsStaged s itemId :
  cellsStaged (newTransactions s) ->
  cellsStaged (newTransactions (saveTransaction s itemId)).
Proof.
  intros Hs. unfold saveTransaction.
  destruct (activeRows s !! itemId) as [formState|]; [|done].
  destruct (_ || _); [done|].
  destruct (parseInt _) as [qtyNum|]; [|done].
  case_bool_decide; [done|]. simpl. apply stage_cellsStaged; [lia | done].
Qed.

(** Every command on the draft keeps the cells of the draft staged: a cell
    with [in = 0] and [out = 0] never stays in a row. *)
Lemma stagingTable_tableStaged a s op :
  tableStaged s -> tableStaged (stagingTable a s op).
Proof.
  intros [Hnew Hdrafts]. destruct op; simpl; try (by split).
  - split; [by apply saveTransaction_cellsStaged|].
    unfold saveTransaction. by repeat case_match.
  - split; [by apply unstage_cellsStaged | done].
  - unfold handleAddItemRow. by case_match.
  - unfold handleRemoveItemRow. case_match; [done|].
    split; [by apply delete_cellsStaged | done].
  - unfold switchDate. destruct (drafts s !! newDate) as [dr|] eqn:Hdr; simpl.
    + split; [by apply (Hdrafts newDate)|]. intros D dr'. simpl.
      rewrite lookup_insert. case_decide; [intros [= <-] | apply Hdrafts]; done.
    + split; [apply cellsStaged_empty|]. intros D dr'. simpl.
      rewrite lookup_insert. case_decide; [intros [= <-] | apply Hdrafts]; done.
Qed.

Lemma draft_cells_stay_staged w ops :
  tableStaged (table w) -> tableStaged (table (foldl runStaging w ops)).
Proof.
  revert w. induction ops as [|op ops IH]; intros w Hw; simpl; [done|].
  apply IH. simpl. by apply stagingTable_tableStaged.
Qed.

Lemma emptyTable_staged today : tableStaged (emptyTable today).
Proof.
  split; [apply cellsStaged_empty|]. intros D dr. simpl.
  by rewrite lookup_empty.
Qed.

(** C8 (the code at the failing input). Removing the only staged entry of an
    item deletes the cell and leaves the emptied row of the item in the
    matrix: the draft is [{ i1: {} }], not [{}]; it still counts as a draft,
    and submitting it stamps the item without any record. *)
Theorem remove_draft_leaves_empty_row :
  rowsStaged (newTransactions table1)
  /\ newTransactions (removeDraftTransaction table1 "i1" "d1" TIn)
     = {[ "i1" := ∅ ]}
  /\ ~ rowsStaged (newTransactions (removeDraftTransaction table1 "i1" "d1" TIn))
  /\ hasDrafts (removeDraftTransaction table1 "i1" "d1" TIn) = true
  /\ app (handleSubmit env1
            (mkWorld store1 (removeDraftTransaction table1 "i1" "d1" TIn)))
     = mkApp [stamp "t1" item1] [dept1] [].
Proof.
  assert (Hnew : newTransactions (removeDraftTransaction table1 "i1" "d1" TIn)
                 = {[ "i1" := ∅ ]}) by (by vm_compute).
  split; [|split; [done|split; [|split]]].
  - intros i row. simpl. intros [<- <-]%lookup_singleton_Some.
    intros Hrow. apply (f_equal (fun r : DeptTrans => r !! "d1")) in Hrow.
    by rewrite lookup_singleton_eq, lookup_empty in Hrow.
  - intros Hrows. rewrite Hnew in Hrows.
    apply (Hrows "i1" ∅); [apply lookup_singleton_eq | done].
  - by vm_compute.
  - by vm_compute.
Qed.

(** ** Restore *)




(** A payload with array-shaped collections and no history is restored. *)
Example restore_arrays :
  restoreOnLoad rawStore1 (Some payloadArrays) true
  = ({| raw_items := Some (JArr [JStr "a"]);
        raw_departments := Some (JArr []);
        raw_history := Some (JArr []) |}, Restored).
Proof. by vm_compute. Qed.


(** * The rest of the components *)

(** ** The form of an item *)

(** X1. Whatever the form submits is an item of the data model: a threshold
    only when it is positive, the two dates exactly for Warehouse 1. *)
Theorem formItem_wf initialData f uuid now :
  wfItem (formItem initialData f uuid now).
Proof.
  unfold wfItem, formItem. simpl. split; [|split].
  - intros m. case_bool_decide; [|done]. by intros [= <-].
  - destruct (form_location f); split; intros H;
      try done; try (by eexists); by inversion H.
  - destruct (form_location f); split; intros H;
      try done; try (by eexists); by inversion H.
Qed.

(** X2. Opening an item of the data model in the form and submitting it
    unchanged gives the item back, with a new time stamp and the same id. *)
Theorem form_round_trip i uuid now :
  wfItem i -> formItem (Some i) (loadForm i) uuid now = stamp now i.
Proof.
  intros (Hmin & Hprod & Hexp). destruct i as [id nm img un q ms loc pd ed lu].
  unfold formItem, loadForm, stamp. simpl in *. f_equal.
  - destruct ms as [m|]; simpl; [|done].
    by rewrite bool_decide_true by (by apply Hmin).
  - destruct loc.
    + destruct pd; [done|]. by destruct (proj2 Hprod eq_refl).
    + destruct pd as [s|]; [|done]. by specialize (proj1 Hprod (mk_is_Some _ _ eq_refl)).
  - destruct loc.
    + destruct ed; [done|]. by destruct (proj2 Hexp eq_refl).
    + destruct ed as [s|]; [|done]. by specialize (proj1 Hexp (mk_is_Some _ _ eq_refl)).
Qed.

Lemma item1_wf : wfItem item1.
Proof.
  unfold wfItem, item1. simpl. split; [done|].
  split; (split; [by intros [??] | done]).
Qed.

Lemma form_round_trip_witness :
  wfItem item1 /\ formItem (Some item1) (loadForm item1) "u" "t9" = stamp "t9" item1.
Proof. split; [exact item1_wf | exact (form_round_trip item1 "u" "t9" item1_wf)]. Defined.

(** ** The catalog *)

Lemma getItem_app id its1 its2 :
  getItem id (its1 ++ its2)
  = match getItem id its1 with Some x => Some x | None => getItem id its2 end.
Proof.
  induction its1 as [|x its1 IH]; [done|].
  simpl. rewrite !getItem_cons. by destruct (decide (item_id x = id)).
Qed.


Lemma getItem_map_replace id item its :
  getItem id (map (fun i => if bool_decide (item_id i = item_id item)
                            then item else i) its)
  = if decide (id = item_id item)
    then (if known its id then Some item else None)
    else getItem id its.
Proof.
  induction its as [|x its IH]; simpl.
  - by destruct (decide (id = item_id item)).
  - rewrite !getItem_cons, IH. unfold known. rewrite fmap_cons.
    destruct (decide (id = item_id item)) as [->|Hne].
    + case_bool_decide as Hx.
      * rewrite decide_True by done. rewrite bool_decide_true; [done|].
        rewrite Hx. by left.
      * rewrite decide_False by done.
        assert (Hiff : bool_decide (item_id item ∈ item_id x :: (item_id <$> its))
                       = bool_decide (item_id item ∈ item_id <$> its)).
        { apply bool_decide_ext. rewrite elem_of_cons.
          split; [intros [?|?]; [congruence | done] | by right]. }
        by rewrite Hiff.
    + case_bool_decide as Hx.
      * rewrite decide_False by congruence.
        by rewrite decide_False by congruence.
      * done.
Qed.

(** X3. The catalog after the form was submitted: while an item is edited, the
    submitted item takes the place of the item of its id, and is dropped
    when the catalog has no such item; otherwise it is added at the end,
    behind any item that has its id already.  No other item changes, and
    neither do the departments and the ledger. *)
Theorem handleAddItem_lookup v item id :
  getItem id (items (store (handleAddItem v item)))
  = match editingItem v with
    | Some _ =>
        if decide (id = item_id item)
        then (if known (items (store v)) id then Some item else None)
        else getItem id (items (store v))
    | None =>
        match getItem id (items (store v)) with
        | Some x => Some x
        | None => if decide (id = item_id item) then Some item else None
        end
    end
  /\ departments (store (handleAddItem v item)) = departments (store v)
  /\ history (store (handleAddItem v item)) = history (store v)
  /\ editingItem (handleAddItem v item) = None.
Proof.
  unfold handleAddItem. simpl. destruct (editingItem v) as [e|]; simpl.
  - by rewrite getItem_map_replace.
  - rewrite getItem_app. split; [|done].
    destruct (getItem id (items (store v))); [done|].
    rewrite getItem_cons. by destruct (decide (item_id item = id)), (decide (id = item_id item)).
Qed.

Lemma getItem_filter (P : string -> Prop) `{!forall x, Decision (P x)} id its :
  getItem id (filter (fun i => P (item_id i)) its)
  = if decide (P id) then getItem id its else None.
Proof.
  induction its as [|x its IH]; simpl.
  - by destruct (decide (P id)).
  - rewrite filter_cons. destruct (decide (P (item_id x))) as [Hx|Hx].
    + rewrite !getItem_cons, IH.
      destruct (decide (item_id x = id)) as [<-|Hne]; [|done].
      by destruct (decide (P (item_id x))).
    + rewrite getItem_cons, IH.
      destruct (decide (item_id x = id)) as [<-|Hne]; [|done].
      by destruct (decide (P (item_id x))).
Qed.

(** X4. Deleting items: a confirmed delete removes every item of the id and
    takes the id out of the selection; a confirmed bulk delete removes the
    items of all selected ids and empties the selection; no other item
    changes, and the ledger keeps the records of the deleted items. *)
Theorem delete_items_lookup v id' :
  (forall id,
      getItem id' (items (store (handleDeleteItem v id true)))
      = (if decide (id' = id) then None else getItem id' (items (store v)))
      /\ history (store (handleDeleteItem v id true)) = history (store v)
      /\ (id ∉ selectedInventoryIds (handleDeleteItem v id true))
      /\ handleDeleteItem v id false = v)
  /\ getItem id' (items (store (handleBulkDelete v true)))
     = (if decide (id' ∈ selectedInventoryIds v) then None
        else getItem id' (items (store v)))
  /\ history (store (handleBulkDelete v true)) = history (store v)
  /\ handleBulkDelete v false = v.
Proof.
  split; [|split; [|split]].
  - intros id. unfold handleDeleteItem. simpl.
    split; [|split; [done|split; [|done]]].
    + pose proof (getItem_filter (fun x => x <> id) id' (items (store v)))
        as Hf. simpl in Hf. rewrite Hf.
      destruct (decide (id' <> id)), (decide (id' = id));
        first [done | congruence | exfalso; tauto].
    + rewrite list_elem_of_filter. tauto.
  - unfold handleBulkDelete. case_bool_decide as Hlen; simpl.
    + apply nil_length_inv in Hlen. rewrite Hlen.
      rewrite decide_False; [done | apply not_elem_of_nil].
    + pose proof (getItem_filter (fun x => x ∉ selectedInventoryIds v) id'
                    (items (store v))) as Hf. simpl in Hf. rewrite Hf.
      destruct (decide (id' ∉ selectedInventoryIds v)),
               (decide (id' ∈ selectedInventoryIds v));
        first [done | exfalso; tauto].
  - unfold handleBulkDelete. by case_bool_decide.
  - unfold handleBulkDelete. by case_bool_decide.
Qed.

Lemma handleBulkMove_keeps v target now :
  let v' := handleBulkMove v target now true in
  item_id <$> items (store v') = item_id <$> items (store v)
  /\ item_name <$> items (store v') = item_name <$> items (store v)
  /\ item_quantity <$> items (store v') = item_quantity <$> items (store v)
  /\ item_minStock <$> items (store v') = item_minStock <$> items (store v)
  /\ item_productionDate <$> items (store v')
     = item_productionDate <$> items (store v)
  /\ item_expiryDate <$> items (store v') = item_expiryDate <$> items (store v)
  /\ (forall i, i ∈ items (store v') ->
        item_id i ∈ selectedInventoryIds v -> item_location i = target)
  /\ (forall i, i ∈ items (store v') ->
        item_id i ∉ selectedInventoryIds v -> i ∈ items (store v))
  /\ history (store v') = history (store v)
  /\ departments (store v') = departments (store v).
Proof.
  unfold handleBulkMove. case_bool_decide as Hlen; simpl.
  - apply nil_length_inv in Hlen. rewrite Hlen.
    repeat split; try done. by intros i _ ?%elem_of_nil.
  - assert (Hproj : forall {B} (f : InventoryItem -> B),
              (forall i, f (relocate target now i) = f i) ->
              f <$> map (fun item =>
                   if bool_decide (item_id item ∈ selectedInventoryIds v)
                   then relocate target now item else item) (items (store v))
              = f <$> items (store v)).
    { intros B f Hf. rewrite <- list_fmap_compose. apply list_fmap_ext.
      intros k i _. simpl. by case_bool_decide. }
    repeat split; try (by apply Hproj); try done.
    + intros i [x [-> Hx]]%list_elem_of_fmap.
      case_bool_decide; [done|]. simpl. done.
    + intros i [x [-> Hx]]%list_elem_of_fmap.
      case_bool_decide; [simpl; done | done].
Qed.

(** X5. A bulk move changes the location and the time stamp of the selected
    items and nothing else: ids, names, quantities, thresholds and the two
    dates stay - an item moved into Warehouse 1 gets no dates, one moved
    out of it keeps them - and so do the departments and the ledger. *)
Theorem handleBulkMove_frame v target now :
  let v' := handleBulkMove v target now true in
  item_id <$> items (store v') = item_id <$> items (store v)
  /\ item_name <$> items (store v') = item_name <$> items (store v)
  /\ item_quantity <$> items (store v') = item_quantity <$> items (store v)
  /\ item_minStock <$> items (store v') = item_minStock <$> items (store v)
  /\ item_productionDate <$> items (store v')
     = item_productionDate <$> items (store v)
  /\ item_expiryDate <$> items (store v') = item_expiryDate <$> items (store v)
  /\ (forall i, i ∈ items (store v') ->
        item_id i ∈ selectedInventoryIds v -> item_location i = target)
  /\ (forall i, i ∈ items (store v') ->
        item_id i ∉ selectedInventoryIds v -> i ∈ items (store v))
  /\ history (store v') = history (store v)
  /\ departments (store v') = departments (store v).
Proof. exact (handleBulkMove_keeps v target now). Qed.

(** X6. Ticking an item twice leaves the selection with the ids it had; a
    ticked id is in the selection exactly when it was not before, and a
    selection without duplicates stays so. *)
Theorem toggleId_twice id prev x :
  (x ∈ toggleId id prev <-> (x ∈ prev /\ x <> id) \/ (x = id /\ id ∉ prev))
  /\ (x ∈ toggleId id (toggleId id prev) <-> x ∈ prev)
  /\ (NoDup prev -> NoDup (toggleId id prev)).
Proof.
  assert (H1 : forall p y, y ∈ toggleId id p
                 <-> (y ∈ p /\ y <> id) \/ (y = id /\ id ∉ p)).
  { intros p y. unfold toggleId. case_bool_decide as Hin.
    - rewrite list_elem_of_filter. split; [tauto|]. intros [?|[-> ?]]; [tauto|done].
    - rewrite elem_of_app, list_elem_of_singleton. split.
      + intros [? | ->]; [left; split; [done|congruence] | by right].
      + intros [[? _]|[-> _]]; [by left | by right]. }
  split; [apply H1|]. split.
  - rewrite H1, !H1. destruct (decide (x = id)) as [->|Hne]; [|tauto].
    split.
    + intros [[_ ?]|[_ Hn]]; [done|].
      destruct (decide (id ∈ prev)); [done|]. exfalso. apply Hn. tauto.
    + intros Hin. right. split; [done|]. tauto.
  - intros Hnd. unfold toggleId. case_bool_decide as Hin.
    + by apply list.NoDup_filter.
    + apply list.NoDup_app. split; [done|]. split; [|apply NoDup_singleton].
      by intros y Hy ->%list_elem_of_singleton.
Qed.

(** ** What a commit writes *)

Lemma deptNameOf_unknown depts d :
  d ∉ dept_id <$> depts -> deptNameOf depts d = "Unknown Dept".
Proof.
  intros Hd. unfold deptNameOf.
  destruct (list_find _ depts) as [[k x]|] eqn:Hf; [|done].
  apply list_find_Some in Hf as (Hk & Hx & _). exfalso. apply Hd.
  apply list_elem_of_fmap. exists x. split; [done|].
  by apply list_elem_of_lookup_2 in Hk.
Qed.

Section commit_writes.
Context (env : Env) (depts : list Department) (date : string).

Lemma commitDept_fold_ids item itemId l n recs :
  rec_id <$> recs = randomUUID env <$> seq 0 (length recs) ->
  let recs' := (foldl (commitDept env depts date item itemId) (n, recs) l).2 in
  rec_id <$> recs' = randomUUID env <$> seq 0 (length recs').
Proof.
  revert n recs. induction l as [|f l IH]; intros n recs Hrecs; simpl; [done|].
  apply IH. unfold commitDept. simpl.
  assert (Hpush : forall ty q rs,
    rec_id <$> rs = randomUUID env <$> seq 0 (length rs) ->
    rec_id <$> pushRecord env date item itemId f.1 (deptNameOf depts f.1) ty q rs
    = randomUUID env <$> seq 0
        (length (pushRecord env date item itemId f.1 (deptNameOf depts f.1) ty q rs))).
  { intros ty q rs Hrs. unfold pushRecord.
    rewrite length_app, Nat.add_1_r, seq_S, !fmap_app, Hrs. done. }
  repeat case_bool_decide; auto.
Qed.

Lemma commitItem_fold_rec_ids l its recs :
  rec_id <$> recs = randomUUID env <$> seq 0 (length recs) ->
  let recs' := (foldl (commitItem env depts date) (its, recs) l).2 in
  rec_id <$> recs' = randomUUID env <$> seq 0 (length recs').
Proof.
  revert its recs. induction l as [|e l IH]; intros its recs Hrecs; simpl; [done|].
  destruct (commitItem env depts date (its, recs) e) as [its1 recs1] eqn:He.
  apply IH. unfold commitItem in He. simpl in He.
  destruct (list_find _ its) as [[k it]|]; simplify_eq; [|done].
  by apply commitDept_fold_ids.
Qed.

Lemma commitDept_fold_snapshot item itemId l n recs r :
  r ∈ (foldl (commitDept env depts date item itemId) (n, recs) l).2 ->
  r ∈ recs
  \/ (rec_itemId r = itemId /\ rec_itemName r = item_name item
      /\ rec_itemImage r = item_image item
      /\ rec_departmentName r = deptNameOf depts (rec_departmentId r)
      /\ rec_timestamp r = timestamp env).
Proof.
  revert n recs. induction l as [|f l IH]; intros n recs; simpl; [by left|].
  intros [Hr|Hr]%IH; [|by right].
  unfold commitDept, pushRecord in Hr. simpl in Hr.
  repeat case_bool_decide;
    repeat (apply elem_of_app in Hr as [Hr|Hr]);
    try (by left);
    apply list_elem_of_singleton in Hr; subst r; by right.
Qed.

Lemma commitItem_getItem id its recs e :
  getItem id (commitItem env depts date (its, recs) e).1
  = if decide (id = e.1) then commitUpdate env e.2 <$> getItem id its
    else getItem id its.
Proof.
  unfold commitItem. simpl.
  destruct (list_find _ its) as [[k it]|] eqn:Hfind; simpl.
  - pose proof (list_find_getItem _ _ _ _ Hfind) as Hget.
    assert (Hid : item_id it = e.1)
      by (by apply list_find_Some in Hfind as (_ & ? & _)).
    rewrite (getItem_insert_found id e.1 its k it) by done.
    destruct (decide (id = e.1)) as [->|Hne]; [|done].
    rewrite Hget. simpl. f_equal. unfold commitUpdate. rewrite commitDept_net.
    unfold netChange, sumIn, sumOut, stamp, addQuantity. simpl. f_equal; lia.
  - destruct (decide (id = e.1)) as [->|Hne]; [|done].
    by rewrite (list_find_getItem_None _ _ Hfind).
Qed.



(** Name and image of the item of an id stay through the loop. *)
Lemma commitItem_fold_card {B} (f : InventoryItem -> B) id l its recs :
  (forall row i, f (commitUpdate env row i) = f i) ->
  f <$> getItem id (foldl (commitItem env depts date) (its, recs) l).1
  = f <$> getItem id its.
Proof.
  intros Hf. revert its recs. induction l as [|e l IH]; intros its recs; simpl; [done|].
  destruct (commitItem env depts date (its, recs) e) as [its1 recs1] eqn:He.
  rewrite IH.
  replace its1 with (commitItem env depts date (its, recs) e).1 by (by rewrite He).
  rewrite commitItem_getItem. destruct (decide (id = e.1)); [|done].
  destruct (getItem id its); simpl; [|done]. by rewrite Hf.
Qed.

Lemma commitItem_fold_snapshot its0 l its recs r :
  (forall id, item_name <$> getItem id its = item_name <$> getItem id its0) ->
  (forall id, item_image <$> getItem id its = item_image <$> getItem id its0) ->
  r ∈ (foldl (commitItem env depts date) (its, recs) l).2 ->
  r ∈ recs \/ snapshotOf its0 depts env r.
Proof.
  revert its recs. induction l as [|e l IH]; intros its recs Hname Himg; simpl;
    [by left|].
  destruct (commitItem env depts date (its, recs) e) as [its1 recs1] eqn:He.
  assert (Hits1 : its1 = (commitItem env depts date (its, recs) e).1)
    by (by rewrite He).
  intros Hr. apply IH in Hr.
  - destruct Hr as [Hr|Hr]; [|by right].
    unfold commitItem in He. simpl in He.
    destruct (list_find _ its) as [[k it]|] eqn:Hfind; simplify_eq; [|by left].
    apply commitDept_fold_snapshot in Hr as [Hr|(Hi & Hn & Hm & Hd & Ht)];
      [by left|]. right.
    pose proof (list_find_getItem _ _ _ _ Hfind) as Hget.
    unfold snapshotOf. rewrite Hi, <- Hname, <- Himg, Hget. simpl.
    by rewrite Hn, Hm.
  - intros id. rewrite Hits1, <- Hname, commitItem_getItem.
    destruct (decide (id = e.1)); [|done]. by destruct (getItem id its).
  - intros id. rewrite Hits1, <- Himg, commitItem_getItem.
    destruct (decide (id = e.1)); [|done]. by destruct (getItem id its).
Qed.
End commit_writes.


(** X8. The records of a commit are snapshots: each carries the name and the
    image that the catalog has for its item at the commit, the name of its
    department - ['Unknown Dept'] when the department list has no such id -
    and the time stamp of the commit. *)
Theorem commit_records_snapshot env st matrix date r :
  r ∈ (commitLoop env st matrix date).2 ->
  snapshotOf (items st) (departments st) env r
  /\ (rec_departmentId r ∉ dept_id <$> departments st ->
      rec_departmentName r = "Unknown Dept").
Proof.
  intros Hr. unfold commitLoop in Hr.
  apply (commitItem_fold_snapshot env (departments st) date (items st)) in Hr;
    [|done|done].
  destruct Hr as [Hr|Hr]; [by apply elem_of_nil in Hr|].
  split; [done|]. intros Hd. destruct Hr as (_ & _ & -> & _).
  by apply deptNameOf_unknown.
Qed.

Lemma commit_records_snapshot_witness :
  (mkRecord "0" "2024-05-01" "i1" "Widget" "w.png" "d9" "Unknown Dept" TIn 2 "t1")
    ∈ (commitLoop env1 store1 {[ "i1" := {[ "d9" := mkCell 2 0 ]} ]} "2024-05-01").2
  /\ snapshotOf (items store1) (departments store1) env1
       (mkRecord "0" "2024-05-01" "i1" "Widget" "w.png" "d9" "Unknown Dept" TIn 2 "t1").
Proof.
  assert (Hin : (mkRecord "0" "2024-05-01" "i1" "Widget" "w.png" "d9"
                          "Unknown Dept" TIn 2 "t1")
    ∈ (commitLoop env1 store1 {[ "i1" := {[ "d9" := mkCell 2 0 ]} ]} "2024-05-01").2).
  { vm_compute. apply list_elem_of_here. }
  split; [exact Hin|].
  exact (proj1 (commit_records_snapshot env1 store1 _ "2024-05-01" _ Hin)).
Defined.

(** X9. The ids of the records of a commit are the successive results of
    [crypto.randomUUID]: distinct whenever these are. *)
Theorem commit_record_ids env st matrix date :
  (forall k k', (k < length (commitLoop env st matrix date).2)%nat ->
                (k' < length (commitLoop env st matrix date).2)%nat ->
                randomUUID env k = randomUUID env k' -> k = k') ->
  rec_id <$> (commitLoop env st matrix date).2
  = randomUUID env <$> seq 0 (length (commitLoop env st matrix date).2)
  /\ NoDup (rec_id <$> (commitLoop env st matrix date).2).
Proof.
  intros Hinj.
  assert (Hids : rec_id <$> (commitLoop env st matrix date).2
    = randomUUID env <$> seq 0 (length (commitLoop env st matrix date).2)).
  { unfold commitLoop. by apply commitItem_fold_rec_ids. }
  split; [done|]. rewrite Hids. apply NoDup_fmap_2_strong; [|apply NoDup_seq].
  intros k k' Hk Hk'. apply Hinj.
  - apply elem_of_seq in Hk. lia.
  - apply elem_of_seq in Hk'. lia.
Qed.

Lemma commit_record_ids_witness :
  (forall k k', (k < length (commitLoop env1 store1 draft1 "2024-05-01").2)%nat ->
                (k' < length (commitLoop env1 store1 draft1 "2024-05-01").2)%nat ->
                randomUUID env1 k = randomUUID env1 k' -> k = k')
  /\ NoDup (rec_id <$> (commitLoop env1 store1 draft1 "2024-05-01").2).
Proof.
  assert (Hinj : forall k k',
    (k < length (commitLoop env1 store1 draft1 "2024-05-01").2)%nat ->
    (k' < length (commitLoop env1 store1 draft1 "2024-05-01").2)%nat ->
    randomUUID env1 k = randomUUID env1 k' -> k = k').
  { change (length (commitLoop env1 store1 draft1 "2024-05-01").2) with 2%nat.
    intros k k' Hk Hk'.
    destruct k as [|[|k]], k' as [|[|k']]; try lia; try done. }
  split; [exact Hinj|].
  exact (proj2 (commit_record_ids env1 store1 draft1 "2024-05-01" Hinj)).
Defined.

(** ** Deleting records *)

Lemma list_find_unique_id h (record : TransactionRecord) :
  NoDup (rec_id <$> h) -> record ∈ h ->
  exists n, list_find (fun r => rec_id r = rec_id record) h = Some (n, record).
Proof.
  induction h as [|x h IH]; intros Hnd Hin; [by apply elem_of_nil in Hin|].
  csimpl in Hnd. apply list.NoDup_cons in Hnd as [Hx Hnd]. simpl.
  apply elem_of_cons in Hin as [->|Hin].
  - exists 0%nat. by rewrite decide_True.
  - destruct (IH Hnd Hin) as [n Hn]. exists (S n).
    rewrite decide_False; [by rewrite Hn|].
    intros Heq. apply Hx. rewrite Heq. apply list_elem_of_fmap. eauto.
Qed.

Lemma filter_other_ids h (record : TransactionRecord) :
  NoDup (rec_id <$> h) -> record ∈ h ->
  h ≡ₚ record :: filter (fun r => rec_id r <> rec_id record) h.
Proof.
  induction h as [|x h IH]; intros Hnd Hin; [by apply elem_of_nil in Hin|].
  csimpl in Hnd. apply list.NoDup_cons in Hnd as [Hx Hnd].
  rewrite filter_cons. apply elem_of_cons in Hin as [->|Hin].
  - rewrite decide_False by (by intros []). constructor.
    assert (Hall : Forall (fun r => rec_id r <> rec_id x) h).
    { apply list.Forall_forall. intros r Hr Heq. apply Hx. rewrite <- Heq.
      apply list_elem_of_fmap. eauto. }
    clear -Hall. induction Hall as [|y h Hy Hall IH]; [done|].
    rewrite filter_cons, decide_True by done. by constructor.
  - rewrite decide_True.
    + rewrite (IH Hnd Hin) at 1. apply perm_swap.
    + intros Heq. apply Hx. rewrite Heq. apply list_elem_of_fmap. eauto.
Qed.

(** X10. When the ids of the ledger are distinct, deleting a record removes that
    record and no other: the ledger is the deleted record together with
    what is left, the record that the reversal reads is the deleted one,
    and the ids that are left are distinct. *)
Theorem delete_exactly_one st record revert :
  NoDup (rec_id <$> history st) -> record ∈ history st ->
  let st' := handleDeleteHistoryRecord st (rec_id record) revert in
  history st ≡ₚ record :: history st'
  /\ length (history st) = S (length (history st'))
  /\ (exists n, list_find (fun r => rec_id r = rec_id record) (history st)
                = Some (n, record))
  /\ NoDup (rec_id <$> history st').
Proof.
  intros Hnd Hin. destruct (list_find_unique_id _ _ Hnd Hin) as [n Hn].
  unfold handleDeleteHistoryRecord. rewrite Hn. simpl.
  pose proof (filter_other_ids _ _ Hnd Hin) as Hperm.
  split; [done|]. split; [by rewrite Hperm at 1|]. split; [eauto|].
  rewrite Hperm in Hnd. csimpl in Hnd. by apply list.NoDup_cons in Hnd as [_ ?].
Qed.

Lemma delete_exactly_one_witness :
  NoDup (rec_id <$> history store2) /\ record1 ∈ history store2
  /\ length (history store2)
     = S (length (history (handleDeleteHistoryRecord store2 "r1" false))).
Proof.
  assert (Hnd : NoDup (rec_id <$> history store2)).
  { simpl. apply NoDup_singleton. }
  assert (Hin : record1 ∈ history store2) by apply list_elem_of_here.
  split; [exact Hnd|]. split; [exact Hin|].
  exact (proj1 (proj2 (delete_exactly_one store2 record1 false Hnd Hin))).
Defined.

(** ** The balance of the ledger *)













(** ** Backup and restore *)

Lemma locationToJson_inj l1 l2 : locationToJson l1 = locationToJson l2 -> l1 = l2.
Proof. by destruct l1, l2. Qed.

Lemma typeToJson_inj t1 t2 : typeToJson t1 = typeToJson t2 -> t1 = t2.
Proof. by destruct t1, t2. Qed.

Lemma optField_lookup key k (v : option json) fields :
  optField key v fields !! k
  = if decide (key = k) then (match v with Some x => Some x | None => fields !! k end)
    else fields !! k.
Proof.
  unfold optField. destruct v as [x|].
  - rewrite lookup_insert. by destruct (decide (key = k)).
  - by destruct (decide (key = k)).
Qed.

Lemma JObj_lookup f1 f2 k : JObj f1 = JObj f2 -> f1 !! k = f2 !! k.
Proof. by intros [= ->]. Qed.

Lemma itemToJson_inj i1 i2 : itemToJson i1 = itemToJson i2 -> i1 = i2.
Proof.
  unfold itemToJson. intros H.
  destruct i1 as [id1 n1 im1 u1 q1 ms1 l1 pd1 ed1 lu1],
           i2 as [id2 n2 im2 u2 q2 ms2 l2 pd2 ed2 lu2]. simpl in H.
  pose proof (fun k => JObj_lookup _ _ k H) as Hl.
  pose proof (Hl "id") as Hid. pose proof (Hl "name") as Hname.
  pose proof (Hl "image") as Himage. pose proof (Hl "unit") as Hunit.
  pose proof (Hl "quantity") as Hq. pose proof (Hl "location") as Hloc.
  pose proof (Hl "lastUpdated") as Hlu. pose proof (Hl "minStock") as Hms.
  pose proof (Hl "productionDate") as Hpd. pose proof (Hl "expiryDate") as Hed.
  clear Hl H.
  rewrite !optField_lookup in Hid, Hname, Himage, Hunit, Hq, Hloc, Hlu, Hms, Hpd, Hed.
  simpl in *.
  rewrite !lookup_insert in Hid, Hname, Himage, Hunit, Hq, Hloc, Hlu, Hms, Hpd, Hed.
  simpl in *. rewrite lookup_empty in Hms, Hpd, Hed.
  injection Hid as ->. injection Hname as ->. injection Himage as ->.
  injection Hunit as ->. injection Hq as ->. injection Hlu as ->.
  injection Hloc as Hloc. apply locationToJson_inj in Hloc as ->.
  assert (ms1 = ms2) as -> by (destruct ms1, ms2; simpl in *; congruence).
  assert (pd1 = pd2) as -> by (destruct pd1, pd2; simpl in *; congruence).
  assert (ed1 = ed2) as -> by (destruct ed1, ed2; simpl in *; congruence).
  done.
Qed.

Lemma deptToJson_inj d1 d2 : deptToJson d1 = deptToJson d2 -> d1 = d2.
Proof.
  unfold deptToJson. intros H. destruct d1 as [i1 n1], d2 as [i2 n2].
  simpl in H.
  pose proof (fun k => JObj_lookup _ _ k H) as Hl.
  pose proof (Hl "id") as Hid. pose proof (Hl "name") as Hname. clear Hl H.
  rewrite !lookup_insert in Hid, Hname. simpl in *. congruence.
Qed.

Lemma recordToJson_inj r1 r2 : recordToJson r1 = recordToJson r2 -> r1 = r2.
Proof.
  unfold recordToJson. intros H.
  destruct r1 as [a1 b1 c1 d1 e1 f1 g1 h1 i1 j1],
           r2 as [a2 b2 c2 d2 e2 f2 g2 h2 i2 j2]. simpl in H.
  pose proof (fun k => JObj_lookup _ _ k H) as Hl.
  pose proof (Hl "id") as Ha. pose proof (Hl "date") as Hb.
  pose proof (Hl "itemId") as Hc. pose proof (Hl "itemName") as Hd.
  pose proof (Hl "itemImage") as He. pose proof (Hl "departmentId") as Hf.
  pose proof (Hl "departmentName") as Hg. pose proof (Hl "type") as Hh.
  pose proof (Hl "quantity") as Hi. pose proof (Hl "timestamp") as Hj.
  clear Hl H.
  rewrite !lookup_insert in Ha, Hb, Hc, Hd, He, Hf, Hg, Hh, Hi, Hj. simpl in *.
  injection Hh as Hh. apply typeToJson_inj in Hh. congruence.
Qed.

Lemma fmap_inj_list {A B} (f : A -> B) (l1 l2 : list A) :
  (forall x y, f x = f y -> x = y) -> f <$> l1 = f <$> l2 -> l1 = l2.
Proof.
  intros Hf. revert l2. induction l1 as [|x l1 IH]; intros [|y l2] H; try done.
  csimpl in H. injection H as Hxy H. f_equal; [by apply Hf | by apply IH].
Qed.

(** X12. A backup can always be restored: the payload that the backup writes
    passes the check of the restore, also with empty collections, and the
    restore puts back the three collections of the store, whatever the
    store holds at that moment; and the store can be read off them. *)
Theorem backup_restore_round_trip st now current :
  restoreOnLoad current (Some (backupData (encodeStore st) now)) true
  = (encodeStore st, Restored)
  /\ (forall st', encodeStore st' = encodeStore st -> st' = st).
Proof.
  split.
  - unfold restoreOnLoad, accepted, historyOrEmpty, backupData, prop. simpl.
    rewrite !lookup_insert. simpl. done.
  - intros st'. unfold encodeStore. intros [= Hi Hd Hh].
    apply fmap_inj_list in Hi; [|apply itemToJson_inj].
    apply fmap_inj_list in Hd; [|apply deptToJson_inj].
    apply fmap_inj_list in Hh; [|apply recordToJson_inj].
    destruct st, st'. simpl in *. congruence.
Qed.

(** ** Amounts of the draft *)

Lemma draftQty_insert_row (m : TransactionMatrix) i (row : DeptTrans) i' d' ty' :
  draftQty (<[i := row]> m) i' d' ty'
  = if decide (i = i') then from_option (cellQty ty') 0 (row !! d')
    else draftQty m i' d' ty'.
Proof.
  unfold draftQty. destruct (decide (i = i')) as [->|Hne].
  - by rewrite lookup_insert_eq.
  - by rewrite lookup_insert_ne.
Qed.

Lemma cellQty_cellSet ty q c ty' :
  cellQty ty' (cellSet ty q c) = if decide (ty = ty') then q else cellQty ty' c.
Proof. by destruct ty, ty'. Qed.

Lemma draftQty_updates i d ty q m i' d' ty' :
  draftQty (stage i d ty q m) i' d' ty'
  = draftQty m i' d' ty'
    + (if decide (i = i' /\ d = d' /\ ty = ty') then q else 0)
  /\ draftQty (unstage i d ty m) i' d' ty'
     = (if decide (i = i' /\ d = d' /\ ty = ty') then 0
        else draftQty m i' d' ty')
  /\ draftQty (delete i m) i' d' ty'
     = (if decide (i = i') then 0 else draftQty m i' d' ty').
Proof.
  split; [|split].
  - unfold stage. rewrite draftQty_insert_row.
    destruct (decide (i = i')) as [<-|Hi].
    + unfold draftQty. set (row := default ∅ (m !! i)).
      destruct (decide (d = d')) as [<-|Hd].
      * rewrite lookup_insert_eq. simpl. rewrite cellQty_cellSet.
        destruct (decide (ty = ty')) as [<-|Hty].
        -- rewrite decide_True by done. destruct (row !! d), ty; simpl; lia.
        -- rewrite decide_False by tauto.
           destruct (row !! d), ty'; simpl; lia.
      * rewrite lookup_insert_ne by done. rewrite decide_False by tauto. lia.
    + rewrite decide_False by tauto. lia.
  - unfold unstage. rewrite draftQty_insert_row.
    destruct (decide (i = i')) as [<-|Hi]; [|by rewrite decide_False by tauto].
    unfold draftQty. set (row := default ∅ (m !! i)).
    destruct (row !! d) as [c|] eqn:Hc.
    + destruct (bool_decide (inQty (cellSet ty 0 c) = 0)
                && bool_decide (outQty (cellSet ty 0 c) = 0)) eqn:Hz.
      * apply andb_true_iff in Hz as [Hin%bool_decide_eq_true Hout%bool_decide_eq_true].
        destruct (decide (d = d')) as [<-|Hd].
        -- rewrite lookup_delete_eq. simpl. rewrite Hc. simpl.
           destruct ty, ty'; simpl in *; repeat case_decide; try done;
             exfalso; tauto.
        -- rewrite lookup_delete_ne by done. by rewrite decide_False by tauto.
      * destruct (decide (d = d')) as [<-|Hd].
        -- rewrite lookup_insert_eq. simpl. rewrite cellQty_cellSet, Hc. simpl.
           destruct (decide (ty = ty')) as [<-|Hty].
           ++ by rewrite decide_True.
           ++ by rewrite decide_False by tauto.
        -- rewrite lookup_insert_ne by done. by rewrite decide_False by tauto.
    + destruct (decide (d = d')) as [<-|Hd].
      * rewrite Hc. simpl. by case_decide.
      * by rewrite decide_False by tauto.
  - unfold draftQty. destruct (decide (i = i')) as [<-|Hi].
    + by rewrite lookup_delete_eq.
    + by rewrite lookup_delete_ne.
Qed.


(** X14. Staging an amount where nothing was staged and removing it again gives
    back every amount of the draft. *)
Theorem unstage_stage_amounts i d ty q m i' d' ty' :
  draftQty m i d ty = 0 ->
  draftQty (unstage i d ty (stage i d ty q m)) i' d' ty' = draftQty m i' d' ty'.
Proof.
  intros H0.
  destruct (draftQty_updates i d ty q (stage i d ty q m) i' d' ty') as (_ & -> & _).
  case_decide as Heq; [|].
  - destruct Heq as (<- & <- & <-). done.
  - destruct (draftQty_updates i d ty q m i' d' ty') as (-> & _).
    rewrite decide_False by done. lia.
Qed.

Lemma unstage_stage_amounts_witness :
  draftQty draft1 "i1" "d2" TIn = 0
  /\ draftQty (unstage "i1" "d2" TIn (stage "i1" "d2" TIn 4 draft1)) "i1" "d1" TOut
     = draftQty draft1 "i1" "d1" TOut.
Proof.
  split; [reflexivity|].
  exact (unstage_stage_amounts "i1" "d2" TIn 4 draft1 "i1" "d1" TOut eq_refl).
Defined.

(** ** Saving an inline form *)

Lemma parseInt_empty : parseInt "" = None.
Proof. reflexivity. Qed.


(** ** What the table keeps in every state *)

Lemma replay_fold_ids_NoDup l m ids :
  NoDup ids -> NoDup (foldl replayRecord (m, ids) l).2.
Proof.
  revert m ids. induction l as [|r l IH]; intros m ids Hids; simpl; [done|].
  destruct (replayRecord (m, ids) r) as [m1 ids1] eqn:Hr.
  apply IH. unfold replayRecord in Hr. simplify_eq. by apply setAdd_NoDup.
Qed.

Lemma historyItems_NoDup hist D : NoDup (historyItems hist D).
Proof. apply replay_fold_ids_NoDup, NoDup_nil_2. Qed.

(** X16. The item ids that [reconstructHistoryForDate] returns are the rows of
    the matrix it sets, each once. *)
Theorem historyItems_rows hist D x :
  (x ∈ historyItems hist D <-> is_Some (replayCommitted hist D !! x))
  /\ NoDup (historyItems hist D).
Proof.
  split; [|apply historyItems_NoDup].
  by rewrite historyItems_elem, replay_row.
Qed.

Lemma historyEffect_inv hist s :
  NoDup (selectedItemIds s) -> tableStaged s ->
  NoDup (selectedItemIds (historyEffect hist s))
  /\ committedTransactions (historyEffect hist s)
     = replayCommitted hist (date (historyEffect hist s))
  /\ tableStaged (historyEffect hist s).
Proof.
  intros Hnd Hst. unfold historyEffect. simpl. split; [|done].
  case_bool_decide; [apply arrayFromSet_NoDup | done].
Qed.

Lemma stagingTable_NoDup a s op :
  NoDup (selectedItemIds s) -> NoDup (selectedItemIds (stagingTable a s op)).
Proof.
  intros Hnd. destruct op; simpl; try done.
  - unfold saveTransaction. by repeat case_match.
  - unfold handleAddItemRow. case_match eqn:Hc; [|done]. simpl.
    apply andb_true_iff in Hc as [_ Hc]. apply negb_true_iff in Hc.
    apply bool_decide_eq_false in Hc.
    apply list.NoDup_app. split; [done|]. split; [|apply NoDup_singleton].
    by intros y Hy ->%list_elem_of_singleton.
  - unfold handleRemoveItemRow. case_match; [done|]. simpl.
    by apply list.NoDup_filter.
  - unfold switchDate. destruct (drafts s !! newDate); simpl.
    + apply arrayFromSet_NoDup.
    + apply historyItems_NoDup.
Qed.

Lemma stagingTable_sync a s op :
  committedTransactions s = replayCommitted (history a) (date s) ->
  committedTransactions (stagingTable a s op)
  = replayCommitted (history a) (date (stagingTable a s op)).
Proof.
  intros Hs. destruct (keepsDate op) eqn:Hk.
  - by destruct (stagingTable_keeps a s op Hk) as (_ & -> & ->).
  - destruct op; try done. simpl. unfold switchDate.
    by destruct (drafts s !! newDate).
Qed.

Lemma runCommand_inv w c : tableInv w -> tableInv (runCommand w c).
Proof.
  intros (Hnd & Hsync & Hst). destruct c as [op|env]; simpl.
  - unfold tableInv, runStaging. simpl. split; [|split].
    + by apply stagingTable_NoDup.
    + destruct (stagingApp_keeps (app w) op) as [_ ->].
      by apply stagingTable_sync.
    + by apply stagingTable_tableStaged.
  - unfold handleSubmit. case_bool_decide; [done|].
    unfold tableInv. cbn [table app]. apply historyEffect_inv; [done|].
    destruct Hst as [_ Hdr]. split; [apply cellsStaged_empty|].
    intros D dr. simpl. intros Hdel. apply (Hdr D).
    by apply lookup_delete_Some in Hdel as [_ ?].
Qed.

Lemma mount_inv st today : tableInv (mount st today).
Proof.
  unfold mount, tableInv. cbn [table app].
  apply historyEffect_inv; [apply NoDup_nil_2 | apply emptyTable_staged].
Qed.

Lemma reachable_inv st today cmds :
  tableInv (foldl runCommand (mount st today) cmds).
Proof.
  assert (H : forall w, tableInv w -> tableInv (foldl runCommand w cmds)).
  { induction cmds as [|c cmds IH]; intros w Hw; simpl; [done|].
    by apply IH, runCommand_inv. }
  apply H, mount_inv.
Qed.

(** X17. In every state that the table reaches from its mount - through inline
    forms, removals, rows, date switches, new departments and commits, in
    any order - no item has two rows, the committed matrix on screen is the
    replay of the ledger for the date on screen, and neither the draft on
    screen nor any saved draft holds a cell with [in = 0] and [out = 0] or
    a negative amount. *)
Theorem table_invariants st today cmds :
  let w := foldl runCommand (mount st today) cmds in
  NoDup (selectedItemIds (table w))
  /\ committedTransactions (table w)
     = replayCommitted (history (app w)) (date (table w))
  /\ cellsStaged (newTransactions (table w))
  /\ (forall D dr, drafts (table w) !! D = Some dr ->
        cellsStaged (draft_newTransactions dr)).
Proof.
  destruct (reachable_inv st today cmds) as (Hnd & Hsync & Hnew & Hdr). done.
Qed.




(** X19. Removing the row of an item with saved records only hides it: the
    ledger keeps the records, and after a switch to another date and back
    the item has its row again. *)
Theorem removed_row_returns hist s id D2 :
  is_Some (replayCommitted hist (date s) !! id) ->
  (id ∉ selectedItemIds (handleRemoveItemRow s id true))
  /\ id ∈ selectedItemIds
          (switchDate hist (switchDate hist (handleRemoveItemRow s id true) D2)
                      (date s)).
Proof.
  intros Hrow. split.
  - unfold handleRemoveItemRow. rewrite andb_false_r. simpl.
    rewrite list_elem_of_filter. tauto.
  - set (s1 := handleRemoveItemRow s id true).
    assert (Hdate : date s1 = date s).
    { unfold s1, handleRemoveItemRow. by rewrite andb_false_r. }
    pose proof (switchDate_snapshot hist s1 D2) as Hsnap. rewrite Hdate in Hsnap.
    rewrite (switchDate_restore _ _ _ _ Hsnap). simpl.
    rewrite arrayFromSet_elem, elem_of_app. left.
    apply historyItems_elem. by apply replay_row.
Qed.

Lemma removed_row_returns_witness :
  is_Some (replayCommitted [record1] (date table1) !! "i1")
  /\ "i1" ∈ selectedItemIds
       (switchDate [record1]
          (switchDate [record1] (handleRemoveItemRow table1 "i1" true) "2024-06-01")
          (date table1)).
Proof.
  assert (H : is_Some (replayCommitted [record1] (date table1) !! "i1")).
  { exists {[ "d1" := mkCell 5 0 ]}. by vm_compute. }
  split; [exact H|].
  exact (proj2 (removed_row_returns [record1] table1 "i1" "2024-06-01" H)).
Defined.

(** ** Sums over objects, sorting *)








(** ** The daily log *)

Lemma groupedHistory_fold l groups D :
  foldl groupRecord groups l !! D
  = match default [] (groups !! D) ++ filter (fun r => rec_date r = D) l with
    | [] => groups !! D
    | g => Some g
    end.
Proof.
  revert groups. induction l as [|r l IH]; intros groups; simpl.
  - rewrite app_nil_r. by destruct (groups !! D) as [[|]|].
  - rewrite IH, filter_cons. unfold groupRecord.
    destruct (decide (rec_date r = D)) as [<-|Hne].
    + rewrite lookup_insert_eq. simpl. rewrite <- app_assoc. simpl.
      destruct (default [] (groups !! rec_date r)); done.
    + by rewrite lookup_insert_ne.
Qed.

Lemma groupedHistory_lookup l D :
  groupedHistory l !! D
  = match filter (fun r => rec_date r = D) l with
    | [] => None
    | g => Some g
    end.
Proof.
  unfold groupedHistory. rewrite groupedHistory_fold, lookup_empty. done.
Qed.

(** X20. The daily log groups the ledger by date: the group of a date holds the
    records of that date that pass the search, in the order of the ledger,
    and a date without such a record has no group. *)
Theorem groupedHistory_groups matchesSearch hist D :
  groupedHistory (filteredHistory matchesSearch hist) !! D
  = match filter (fun r => rec_date r = D) (filteredHistory matchesSearch hist) with
    | [] => None
    | g => Some g
    end
  /\ (forall group r,
        groupedHistory (filteredHistory matchesSearch hist) !! D = Some group ->
        r ∈ group <-> r ∈ hist /\ matchesSearch r = true /\ rec_date r = D).
Proof.
  split; [apply groupedHistory_lookup|].
  intros group r. rewrite groupedHistory_lookup. intros Hg.
  assert (group = filter (fun r => rec_date r = D)
                         (filteredHistory matchesSearch hist)) as ->.
  { destruct (filter _ (filteredHistory matchesSearch hist)); [done|].
    by injection Hg as <-. }
  unfold filteredHistory. rewrite !list_elem_of_filter. tauto.
Qed.







(** ** The monthly report *)



















(** ** The dashboard *)









(** ** Departments *)

Lemma deptNameOf_app depts extra id :
  id ∈ dept_id <$> depts -> deptNameOf (depts ++ extra) id = deptNameOf depts id.
Proof.
  intros (d & -> & Hd)%list_elem_of_fmap. unfold deptNameOf.
  destruct (list_find_elem_of (fun x => dept_id x = dept_id d) depts d)
    as [[k e] He]; [done..|].
  by rewrite (list_find_app_l _ _ _ _ _ He), He.
Qed.

(** X27. Adding a department keeps the names of the departments distinct, and
    does not change the name under which a department that was there is
    written into the ledger, even when the new identifier is one that is
    already in use; the catalog and the ledger are untouched. *)
Theorem add_department_names st name uuid :
  NoDup (dept_name <$> departments st) ->
  NoDup (dept_name <$> departments (handleAddDepartment st name uuid))
  /\ name ∈ dept_name <$> departments (handleAddDepartment st name uuid)
  /\ (forall id, id ∈ dept_id <$> departments st ->
        deptNameOf (departments (handleAddDepartment st name uuid)) id
        = deptNameOf (departments st) id)
  /\ items (handleAddDepartment st name uuid) = items st
  /\ history (handleAddDepartment st name uuid) = history st.
Proof.
  intros Hnd. unfold handleAddDepartment. case_bool_decide as Hin; simpl.
  - by split_and!.
  - split_and!; try done.
    + rewrite fmap_app. apply list.NoDup_app. split_and!; [done| |].
      * intros x Hx [-> | []%elem_of_nil]%list.elem_of_cons. done.
      * apply NoDup_singleton.
    + rewrite fmap_app, elem_of_app. right. simpl. by left.
    + intros id Hid. by apply deptNameOf_app.
Qed.

Lemma add_department_names_witness :
  NoDup (dept_name <$> departments store1)
  /\ NoDup (dept_name <$> departments (handleAddDepartment store1 "Bar" "d1")).
Proof.
  assert (Hnd : NoDup (dept_name <$> departments store1)).
  { simpl. apply NoDup_singleton. }
  split; [done|].
  exact (proj1 (add_department_names store1 "Bar" "d1" Hnd)).
Defined.

(** ** Selecting what is shown *)

(** X28. Selecting all the items that the filter shows and then deleting the
    selection removes the items that share an identifier with a shown one,
    and no other.  [toggleSelectAll] compares the selection with the shown
    items by their number only: a selection of as many identifiers, whatever
    they are, is emptied instead, and the deletion then does nothing. *)
Theorem select_all_then_delete v matchesSearch showLowStockOnly :
  let shown := filteredItems matchesSearch showLowStockOnly (items (store v)) in
  (length (selectedInventoryIds v) <> length shown
   -> forall i, i ∈ items (store (handleBulkDelete (toggleSelectAll v shown) true))
                <-> i ∈ items (store v) /\ item_id i ∉ item_id <$> shown)
  /\ (length (selectedInventoryIds v) = length shown
      -> handleBulkDelete (toggleSelectAll v shown) true
         = toggleSelectAll v shown
         /\ items (store (toggleSelectAll v shown)) = items (store v)
         /\ (shown <> [] -> selectedInventoryIds (toggleSelectAll v shown) = [])).
Proof.
  intros shown. clearbody shown. split.
  - intros Hlen i. unfold toggleSelectAll, handleBulkDelete. simpl.
    rewrite (bool_decide_eq_false_2
               (length (selectedInventoryIds v) = length shown)) by done.
    simpl. case_bool_decide as Hz; simpl.
    + rewrite length_fmap in Hz. apply nil_length_inv in Hz. rewrite Hz.
      simpl. split; [|tauto]. intros Hi. split; [done | apply not_elem_of_nil].
    + rewrite list_elem_of_filter. tauto.
  - intros Hlen. unfold toggleSelectAll, handleBulkDelete. simpl.
    rewrite (bool_decide_eq_true_2
               (length (selectedInventoryIds v) = length shown)) by done.
    simpl. destruct shown as [|x shown'] eqn:Hs; simpl.
    + by split_and!.
    + by split_and!.
Qed.
